(** * Retirement planner: superannuation projection engine

    A shallow embedding of [superannuation.py] and the properties its
    specification states about it.

    Numbers.  The Python code computes on floats; here every amount and
    rate is an exact rational ([Q], compared with [==]), so the results
    below are about the arithmetic the code writes down, not about
    binary64 rounding.  Ages and year counters are integers ([Z]). *)

From Stdlib Require Import ZArith QArith Qminmax Qround Qpower Lqa Lia List Bool.
Import ListNotations.

Open Scope Q_scope.

(** ** Comparisons and rounding on rationals *)

Module Num.

(** [x < y] as a boolean, next to the library's [Qle_bool] and [Qeq_bool]. *)
Definition Qlt_bool (x y : Q) : bool := negb (Qle_bool y x).

(** Round half to even on an exact rational. *)
Definition round_half_even (q : Q) : Z :=
  let f := Qfloor q in
  let d := q - inject_Z f in
  if Qlt_bool d (1 # 2) then f
  else if Qlt_bool (1 # 2) d then (f + 1)%Z
  else if Z.even f then f else (f + 1)%Z.

(** Python's [round(x, 2)]. *)
Definition round2 (x : Q) : Q := inject_Z (round_half_even (x * 100)) / 100.

End Num.

Import Num.

(** ** Rate tables *)

Inductive HouseholdStatus : Set := single | couple.

Definition status_eqb (a b : HouseholdStatus) : bool :=
  match a, b with
  | single, single | couple, couple => true
  | _, _ => false
  end.

Record RateConstants : Set := {
  MAX_ANNUAL_AGE_PENSION : Q;
  DEEM_THRESH1 : Q;
  DEEM_RATE1 : Q;
  DEEM_RATE2 : Q;
  ASSET_FULL_PENSION : Q;
  ASSET_PART_PENSION_CUTOFF : Q;
  INCOME_FULL_PENSION : Q;
  INCOME_PART_PENSION_CUTOFF : Q;
  AP_INCOME_REDUCTION_RATE : Q;
  SAPTO_MAX : Q;
  SAPTO_EFFECTIVE_TAX_FREE_THRESHOLD : Q;
  SAPTO_PHASE_OUT_RATE : Q;
  MEDICARE_LEVY_THRESHOLD_SENIOR : Q;
  MEDICARE_LEVY_RATE : Q
}.

(** [CONSTANTS[relationship_status]]. *)
Definition CONSTANTS (relationship_status : HouseholdStatus) : RateConstants :=
  match relationship_status with
  | single =>
      {| MAX_ANNUAL_AGE_PENSION := 29874;
         DEEM_THRESH1 := 64200;
         DEEM_RATE1 := 0.0025;
         DEEM_RATE2 := 0.0225;
         ASSET_FULL_PENSION := 321500;
         ASSET_PART_PENSION_CUTOFF := 704500;
         INCOME_FULL_PENSION := 5668;
         INCOME_PART_PENSION_CUTOFF := 65416;
         AP_INCOME_REDUCTION_RATE := 0.5;
         SAPTO_MAX := 2230;
         SAPTO_EFFECTIVE_TAX_FREE_THRESHOLD := 32279;
         SAPTO_PHASE_OUT_RATE := 0.125;
         MEDICARE_LEVY_THRESHOLD_SENIOR := 43020;
         MEDICARE_LEVY_RATE := 0.02 |}
  | couple =>
      {| MAX_ANNUAL_AGE_PENSION := 45037.20;
         DEEM_THRESH1 := 106200;
         DEEM_RATE1 := 0.0025;
         DEEM_RATE2 := 0.0225;
         ASSET_FULL_PENSION := 481500;
         ASSET_PART_PENSION_CUTOFF := 1059000;
         INCOME_FULL_PENSION := 9880;
         INCOME_PART_PENSION_CUTOFF := 99954.40;
         AP_INCOME_REDUCTION_RATE := 0.5;
         SAPTO_MAX := 1602;
         SAPTO_EFFECTIVE_TAX_FREE_THRESHOLD := 30994;
         SAPTO_PHASE_OUT_RATE := 0.125;
         MEDICARE_LEVY_THRESHOLD_SENIOR := 59886;
         MEDICARE_LEVY_RATE := 0.02 |}
  end.

Definition AGE_PENSION_ELIGIBILITY_AGE : Z := 67.

(** ** Minimum drawdown *)

(** The dict [MIN_DRAWDOWN_RATES], in insertion order (the order the
    lookup iterates in). *)
Definition MIN_DRAWDOWN_RATES : list ((Z * Z) * Q) :=
  [ ((0, 64)%Z, 0.04);
    ((65, 74)%Z, 0.05);
    ((75, 79)%Z, 0.06);
    ((80, 84)%Z, 0.07);
    ((85, 89)%Z, 0.09);
    ((90, 94)%Z, 0.11);
    ((95, 200)%Z, 0.14) ].

(** The [for] loop of [get_min_drawdown_rate]: [Some rate] when a band
    returns, [None] when the loop falls through. *)
Fixpoint find_band_rate (bands : list ((Z * Z) * Q)) (age : Z) : option Q :=
  match bands with
  | [] => None
  | (age_range, rate) :: rest =>
      if ((fst age_range <=? age) && (age <=? snd age_range))%Z
      then Some rate
      else find_band_rate rest age
  end.

Definition get_min_drawdown_rate (age : Z) : Q :=
  match find_band_rate MIN_DRAWDOWN_RATES age with
  | Some rate => rate
  | None => 0.0
  end.

(** ** Tax and Age Pension

    [calculate_tax] is a closure of [project_retirement_income]: it reads
    the constants selected by [relationship_status]. *)

Section Rules.

Variable relationship_status : HouseholdStatus.

Let selected_constants := CONSTANTS relationship_status.

(** The 2025-26 brackets. *)
Definition gross_tax (taxable_income : Q) : Q :=
  if Qle_bool taxable_income 18200 then 0
  else if Qle_bool taxable_income 45000 then (taxable_income - 18200) * 0.16
  else if Qle_bool taxable_income 135000 then 4288 + (taxable_income - 45000) * 0.30
  else if Qle_bool taxable_income 190000 then 31288 + (taxable_income - 135000) * 0.37
  else 51638 + (taxable_income - 190000) * 0.45.

Definition sapto_offset (taxable_income : Q) (age : Z) : Q :=
  if (AGE_PENSION_ELIGIBILITY_AGE <=? age)%Z then
    let sapto_max_current := SAPTO_MAX selected_constants in
    let sapto_effective_threshold_current :=
      SAPTO_EFFECTIVE_TAX_FREE_THRESHOLD selected_constants in
    if Qle_bool taxable_income sapto_effective_threshold_current
    then gross_tax taxable_income
    else
      Qmin
        (Qmax 0 (sapto_max_current
                 - (taxable_income - sapto_effective_threshold_current)
                   * SAPTO_PHASE_OUT_RATE selected_constants))
        (gross_tax taxable_income)
  else 0.

Definition tax_after_sapto (taxable_income : Q) (age : Z) : Q :=
  Qmax 0 (gross_tax taxable_income - sapto_offset taxable_income age).

Definition medicare_levy (taxable_income : Q) (is_couple_tax : bool) : Q :=
  if negb is_couple_tax then
    if Qlt_bool (MEDICARE_LEVY_THRESHOLD_SENIOR selected_constants) taxable_income
    then taxable_income * MEDICARE_LEVY_RATE selected_constants
    else 0
  else
    if Qlt_bool
         (MEDICARE_LEVY_THRESHOLD_SENIOR selected_constants
          / (if status_eqb relationship_status single then 1 else 2))
         taxable_income
    then taxable_income * MEDICARE_LEVY_RATE selected_constants
    else 0.

Definition calculate_tax (taxable_income : Q) (age : Z) (is_couple_tax : bool) : Q :=
  tax_after_sapto taxable_income age + medicare_levy taxable_income is_couple_tax.

(** The pension step of the yearly loop, test by test. *)

Definition deemed_income (current_super : Q) : Q :=
  if Qlt_bool 0 current_super then
    Qmin current_super (DEEM_THRESH1 selected_constants)
      * DEEM_RATE1 selected_constants
    + Qmax 0 (current_super - DEEM_THRESH1 selected_constants)
      * DEEM_RATE2 selected_constants
  else 0.

Definition ap_by_income (deemed : Q) : Q :=
  if Qle_bool deemed (INCOME_FULL_PENSION selected_constants) then
    MAX_ANNUAL_AGE_PENSION selected_constants
  else if Qlt_bool deemed (INCOME_PART_PENSION_CUTOFF selected_constants) then
    Qmax 0 (MAX_ANNUAL_AGE_PENSION selected_constants
            - (deemed - INCOME_FULL_PENSION selected_constants)
              * AP_INCOME_REDUCTION_RATE selected_constants)
  else 0.

Definition ap_by_asset (current_super : Q) : Q :=
  if Qle_bool current_super (ASSET_FULL_PENSION selected_constants) then
    MAX_ANNUAL_AGE_PENSION selected_constants
  else if Qlt_bool current_super (ASSET_PART_PENSION_CUTOFF selected_constants) then
    Qmax 0 (MAX_ANNUAL_AGE_PENSION selected_constants
            - (current_super - ASSET_FULL_PENSION selected_constants) * 0.0078)
  else 0.

Definition annual_age_pension (age : Z) (current_super : Q) : Q :=
  if (AGE_PENSION_ELIGIBILITY_AGE <=? age)%Z then
    Qmax 0 (Qmin (ap_by_income (deemed_income current_super))
                 (ap_by_asset current_super))
  else 0.

End Rules.

(** ** The yearly projection *)

(** The quantities one iteration of the loop computes, before display
    rounding, under the names of the loop's local variables. *)
Record YearValues : Set := {
  yr_age : Z;
  yr_current_super : Q;
  yr_min_drawdown_rate : Q;
  yr_min_drawdown_amt : Q;
  yr_annual_super_withdrawal : Q;
  yr_annual_age_pension : Q;
  yr_total_annual_income_before_tax : Q;
  yr_taxable_age_pension_for_tax_calc : Q;
  yr_total_tax_payment : Q;
  yr_total_income_after_tax : Q;
  yr_investment_return : Q;
  yr_end_super : Q
}.

(** One row of the returned list: the dict appended to [results]. *)
Record YearResult : Set := {
  Age : Z;
  Start_Super : Q;
  Min_Drawdown_Pct : Q;
  Min_Drawdown : Q;
  Annual_Super_Withdrawal : Q;
  Annual_Age_Pension : Q;
  Total_Annual_Income_Pre_Tax : Q;
  Taxable_Income : Q;
  Tax_Payment : Q;
  Total_Income_After_Tax : Q;
  Investment_Return : Q;
  End_Super : Q
}.

Definition year_result (y : YearValues) : YearResult :=
  {| Age := yr_age y;
     Start_Super := round2 (yr_current_super y);
     Min_Drawdown_Pct := round2 (yr_min_drawdown_rate y * 100);
     Min_Drawdown := round2 (yr_min_drawdown_amt y);
     Annual_Super_Withdrawal := round2 (yr_annual_super_withdrawal y);
     Annual_Age_Pension := round2 (yr_annual_age_pension y);
     Total_Annual_Income_Pre_Tax := round2 (yr_total_annual_income_before_tax y);
     Taxable_Income := round2 (yr_taxable_age_pension_for_tax_calc y);
     Tax_Payment := round2 (yr_total_tax_payment y);
     Total_Income_After_Tax := round2 (yr_total_income_after_tax y);
     Investment_Return := round2 (yr_investment_return y);
     End_Super := round2 (yr_end_super y) |}.

(** Python's [range(start, stop)]. *)
Definition range (start stop : Z) : list Z :=
  map (fun i => (start + Z.of_nat i)%Z) (seq 0 (Z.to_nat (stop - start))).

Section Projection.

Variables (start_super : Q) (start_age end_age : Z) (super_return_rate : Q).
Variables (target_after_tax_income : Q) (relationship_status : HouseholdStatus).

(** The body of the loop up to [results.append]. *)
Definition year_values (age : Z) (current_super : Q) : YearValues :=
  let annual_age_pension := annual_age_pension relationship_status age current_super in
  let taxable_age_pension_for_tax_calc :=
    annual_age_pension / (if status_eqb relationship_status couple then 2 else 1) in
  let tax_payment_per_person :=
    calculate_tax relationship_status taxable_age_pension_for_tax_calc age
      (status_eqb relationship_status couple) in
  let total_tax_payment :=
    tax_payment_per_person * (if status_eqb relationship_status couple then 2 else 1) in
  let after_tax_age_pension := annual_age_pension - total_tax_payment in
  let required_super_withdrawal := target_after_tax_income - after_tax_age_pension in
  let min_drawdown_rate := get_min_drawdown_rate age in
  let min_drawdown_amt := current_super * min_drawdown_rate in
  let annual_super_withdrawal := Qmax min_drawdown_amt required_super_withdrawal in
  let annual_super_withdrawal := Qmin annual_super_withdrawal current_super in
  let annual_super_withdrawal :=
    if Qle_bool target_after_tax_income after_tax_age_pension
    then Qmin min_drawdown_amt current_super
    else annual_super_withdrawal in
  let annual_super_withdrawal := Qmax 0 annual_super_withdrawal in
  let total_annual_income_before_tax := annual_super_withdrawal + annual_age_pension in
  let total_income_after_tax := total_annual_income_before_tax - total_tax_payment in
  let super_balance_after_withdrawal := current_super - annual_super_withdrawal in
  let investment_return := super_balance_after_withdrawal * super_return_rate in
  let end_super := super_balance_after_withdrawal + investment_return in
  {| yr_age := age;
     yr_current_super := current_super;
     yr_min_drawdown_rate := min_drawdown_rate;
     yr_min_drawdown_amt := min_drawdown_amt;
     yr_annual_super_withdrawal := annual_super_withdrawal;
     yr_annual_age_pension := annual_age_pension;
     yr_total_annual_income_before_tax := total_annual_income_before_tax;
     yr_taxable_age_pension_for_tax_calc := taxable_age_pension_for_tax_calc;
     yr_total_tax_payment := total_tax_payment;
     yr_total_income_after_tax := total_income_after_tax;
     yr_investment_return := investment_return;
     yr_end_super := end_super |}.

(** The test guarding [current_super = 0]. *)
Definition depleted_early (y : YearValues) : bool :=
  Qle_bool (yr_end_super y) 0 && (yr_age y <? end_age)%Z.

(** The test guarding [break], reached only under [depleted_early]. *)
Definition income_ceased (y : YearValues) : bool :=
  Qeq_bool (yr_annual_age_pension y) 0
  && Qlt_bool (yr_total_income_after_tax y) target_after_tax_income.

(** The [for age in range(...)] loop over the ages still to simulate.
    It returns the years computed and whether it left through [break]. *)
Fixpoint run_years (ages : list Z) (current_super : Q) : list YearValues * bool :=
  match ages with
  | [] => ([], false)
  | age :: rest =>
      let y := year_values age current_super in
      let current_super := yr_end_super y in
      if depleted_early y then
        let current_super := 0 in
        if income_ceased y then ([y], true)
        else let r := run_years rest current_super in (y :: fst r, snd r)
      else let r := run_years rest current_super in (y :: fst r, snd r)
  end.

(** The unrounded years of a projection. *)
Definition projected_years : list YearValues :=
  fst (run_years (range start_age (end_age + 1)) start_super).

(** Whether the projection ended through [break]. *)
Definition terminated_early : bool :=
  snd (run_years (range start_age (end_age + 1)) start_super).

(** The returned list: each year is appended with its amounts rounded
    to cents; the loop itself never reads a rounded amount. *)
Definition project_retirement_income : list YearResult :=
  map year_result projected_years.

End Projection.

(** ** Growth and years-to-target calculators *)

(** Python's [float('inf')] next to the integer results. *)
Inductive Years : Set := Finite (n : Z) | Infinity.

(** The body shared by both loops: contribute, then compound. *)
Definition grow_one_year (annual_contribution annual_return_rate balance : Q) : Q :=
  (balance + annual_contribution) * (1 + annual_return_rate).

Fixpoint grow_years (annual_contribution annual_return_rate : Q)
  (n : nat) (balance : Q) : Q :=
  match n with
  | O => balance
  | S n' =>
      grow_years annual_contribution annual_return_rate n'
        (grow_one_year annual_contribution annual_return_rate balance)
  end.

Definition calculate_super_growth
  (current_balance annual_contribution annual_return_rate : Q) (years : Z) : Q :=
  grow_years annual_contribution annual_return_rate (Z.to_nat years) current_balance.

Definition max_years_projection : Z := 100.

(** The [while] loop, with fuel.  [None] means the fuel ran out with the
    loop condition still true. *)
Fixpoint while_below_target
  (target_balance annual_contribution annual_return_rate : Q)
  (fuel : nat) (years age : Z) (balance : Q) : option (Z * Z * Q) :=
  if Qlt_bool balance target_balance && (years <? max_years_projection)%Z then
    match fuel with
    | O => None
    | S fuel' =>
        while_below_target target_balance annual_contribution annual_return_rate
          fuel' (years + 1)%Z (age + 1)%Z
          (grow_one_year annual_contribution annual_return_rate balance)
    end
  else Some (years, age, balance).

Definition years_to_reach_target_super (start_age : Z)
  (current_balance target_balance annual_contribution annual_return_rate : Q)
  : option (Years * Years * Q) :=
  if Qle_bool target_balance current_balance then
    Some (Finite 0, Finite start_age, current_balance)
  else if Qle_bool annual_contribution 0 && Qle_bool annual_return_rate 0 then
    Some (Infinity, Infinity, current_balance)
  else
    match while_below_target target_balance annual_contribution annual_return_rate
            (Z.to_nat max_years_projection) 0 start_age current_balance with
    | None => None
    | Some (years, age, balance) =>
        if (years =? max_years_projection)%Z && Qlt_bool balance target_balance
        then Some (Infinity, Infinity, balance)
        else Some (Finite years, Finite age, balance)
    end.

(** ** The projection tab of the app

    The handler of the "Run Retirement Projection" button of [app.py].
    Widgets, layout and number formatting are left out; what is kept is
    the table the handler shows and which messages it shows, in order. *)

Inductive Message : Set :=
| start_age_error
| no_projection_warning
| projection_runs (from_age to_age : Z)
| depleted_warning (at_age : Z)
| pension_only_info
| target_not_met_error
| income_ceased_error
| balance_remaining_success
| target_achieved_info.

Definition run_retirement_projection
  (ri_start_super : Q) (ri_start_age ri_end_age : Z)
  (ri_super_return ri_target_income : Q) (ri_relationship_status : HouseholdStatus)
  : list YearResult * list Message :=
  if (ri_end_age <=? ri_start_age)%Z then ([], [start_age_error])
  else
    let projection_results :=
      project_retirement_income ri_start_super ri_start_age ri_end_age
        ri_super_return ri_target_income ri_relationship_status in
    match projection_results with
    | [] => ([], [no_projection_warning])
    | first_year_data :: _ =>
        let last_year_data := last projection_results first_year_data in
        (projection_results,
         projection_runs ri_start_age (Age last_year_data)
         :: (if Qle_bool (End_Super last_year_data) 0 then
               depleted_warning (Age last_year_data)
               :: (if Qlt_bool 0 (Annual_Age_Pension last_year_data) then
                     pension_only_info
                     :: (if Qlt_bool (Total_Income_After_Tax last_year_data)
                              ri_target_income
                         then [target_not_met_error]
                         else [])
                   else [income_ceased_error])
             else [balance_remaining_success; target_achieved_info]))
    end.

(** ** Vocabulary of the properties *)

(** A band of the table contains [age]. *)
Definition band_contains (band : (Z * Z) * Q) (age : Z) : Prop :=
  (fst (fst band) <= age <= snd (fst band))%Z.

(** The threshold the levy test of [calculate_tax] compares with: the
    selected status's senior threshold for a single call, half the couple
    threshold for a household-split call of a couple projection. *)
Definition applicable_levy_threshold (s : HouseholdStatus) (is_couple_tax : bool) : Q :=
  if is_couple_tax
  then MEDICARE_LEVY_THRESHOLD_SENIOR (CONSTANTS couple) / 2
  else MEDICARE_LEVY_THRESHOLD_SENIOR (CONSTANTS s).

(** The cap of 100 iterations is reached with the balance still below the
    target: every balance of the first 100 years, the last included, is
    below the target. *)
Definition cap_reached (current_balance target_balance
                        annual_contribution annual_return_rate : Q) : Prop :=
  forall k : nat, (k <= 100)%nat ->
    grow_years annual_contribution annual_return_rate k current_balance
    < target_balance.

(** * Properties *)

(** ** Comparisons on rationals *)

Lemma Qle_bool_cases (x y : Q) :
  (Qle_bool x y = true /\ x <= y) \/ (Qle_bool x y = false /\ y < x).
Proof.
  destruct (Qle_bool x y) eqn:E.
  - left. split; [reflexivity | now apply Qle_bool_iff].
  - right. split; [reflexivity |].
    apply Qnot_le_lt. intro H. apply Qle_bool_iff in H. congruence.
Qed.

Lemma Qlt_bool_cases (x y : Q) :
  (Qlt_bool x y = true /\ x < y) \/ (Qlt_bool x y = false /\ y <= x).
Proof.
  unfold Qlt_bool.
  destruct (Qle_bool_cases y x) as [[-> H] | [-> H]]; simpl; auto.
Qed.

Lemma Qeq_bool_cases (x y : Q) :
  (Qeq_bool x y = true /\ x == y) \/ (Qeq_bool x y = false /\ ~ x == y).
Proof.
  destruct (Qeq_bool x y) eqn:E.
  - left. split; [reflexivity | now apply Qeq_bool_iff].
  - right. split; [reflexivity | now apply Qeq_bool_neq].
Qed.

Lemma Qlt_bool_iff (x y : Q) : Qlt_bool x y = true <-> x < y.
Proof.
  destruct (Qlt_bool_cases x y) as [[-> H] | [-> H]]; split; auto.
  - discriminate.
  - intro H'. lra.
Qed.

#[global] Instance Qlt_bool_comp : Proper (Qeq ==> Qeq ==> eq) Qlt_bool.
Proof.
  intros x x' Hx y y' Hy. unfold Qlt_bool. now rewrite Hx, Hy.
Qed.

(** Case analysis on every boolean comparison of the goal. *)
Ltac q_tests :=
  repeat match goal with
  | |- context [Qle_bool ?a ?b] =>
      let H := fresh "Hle" in
      destruct (Qle_bool_cases a b) as [[-> H] | [-> H]]
  | |- context [Qlt_bool ?a ?b] =>
      let H := fresh "Hlt" in
      destruct (Qlt_bool_cases a b) as [[-> H] | [-> H]]
  | |- context [Qeq_bool ?a ?b] =>
      let H := fresh "Heq" in
      destruct (Qeq_bool_cases a b) as [[-> H] | [-> H]]
  end.

(** Name every innermost [Qmax]/[Qmin] of the goal, keeping its
    characterisation as a hypothesis. *)
Ltac q_atomic t :=
  lazymatch t with
  | context [Qmax _ _] => fail
  | context [Qmin _ _] => fail
  | _ => idtac
  end.

Ltac q_minmax :=
  repeat match goal with
  | |- context [Qmax ?a ?b] =>
      q_atomic a; q_atomic b;
      let m := fresh "m" in
      let H := fresh "Hm" in
      generalize (Q.max_spec a b); generalize (Qmax a b); intros m H
  | |- context [Qmin ?a ?b] =>
      q_atomic a; q_atomic b;
      let m := fresh "m" in
      let H := fresh "Hm" in
      generalize (Q.min_spec a b); generalize (Qmin a b); intros m H
  end.

(** ** The model on concrete inputs *)

Example tax_in_zero_bracket : calculate_tax single 18000 30 false == 0.
Proof. reflexivity. Qed.

Example full_pension_on_empty_balance : annual_age_pension single 67 0 == 29874.
Proof. reflexivity. Qed.

Example no_pension_before_67 : annual_age_pension couple 66 0 == 0.
Proof. reflexivity. Qed.

Example drawdown_rate_at_70 : get_min_drawdown_rate 70 == 0.05.
Proof. reflexivity. Qed.

Example round2_half_to_even : round2 0.125 == 0.12 /\ round2 0.135 == 0.14.
Proof. split; reflexivity. Qed.

Example growth_two_years : calculate_super_growth 1000 100 0.1 2 == 1441.
Proof. reflexivity. Qed.

Example target_already_met :
  years_to_reach_target_super 40 500 500 10 0.05 = Some (Finite 0, Finite 40, 500).
Proof. reflexivity. Qed.

Example target_unreachable :
  years_to_reach_target_super 40 500 600 0 0 = Some (Infinity, Infinity, 500).
Proof. reflexivity. Qed.

Example projection_of_six_years :
  map Age (project_retirement_income 950000 65 70 0.04 60000 single)
  = [65; 66; 67; 68; 69; 70]%Z.
Proof. reflexivity. Qed.

(** ** Minimum drawdown bands *)

Lemma find_band_rate_MIN_DRAWDOWN_RATES (age : Z) :
  find_band_rate MIN_DRAWDOWN_RATES age =
    if (age <? 0)%Z then None
    else if (age <=? 64)%Z then Some 0.04
    else if (age <=? 74)%Z then Some 0.05
    else if (age <=? 79)%Z then Some 0.06
    else if (age <=? 84)%Z then Some 0.07
    else if (age <=? 89)%Z then Some 0.09
    else if (age <=? 94)%Z then Some 0.11
    else if (age <=? 200)%Z then Some 0.14
    else None.
Proof.
  unfold MIN_DRAWDOWN_RATES, find_band_rate, fst, snd.
  repeat match goal with
  | |- context [(?a <=? ?b)%Z] => destruct (Z.leb_spec a b)
  | |- context [(?a <? ?b)%Z] => destruct (Z.ltb_spec a b)
  end; simpl; try reflexivity; lia.
Qed.

Lemma band_containing_unique (age : Z) (b1 b2 : (Z * Z) * Q) :
  In b1 MIN_DRAWDOWN_RATES -> In b2 MIN_DRAWDOWN_RATES ->
  band_contains b1 age -> band_contains b2 age -> b1 = b2.
Proof.
  unfold MIN_DRAWDOWN_RATES, band_contains. simpl.
  intros H1 H2.
  repeat (destruct H1 as [<- | H1]; [| try contradiction]);
    repeat (destruct H2 as [<- | H2]; [| try contradiction]);
    simpl; intros; try reflexivity; try lia; contradiction.
Qed.

Lemma fallback_iff_outside_bands (age : Z) :
  find_band_rate MIN_DRAWDOWN_RATES age = None <-> (age < 0 \/ 200 < age)%Z.
Proof.
  rewrite find_band_rate_MIN_DRAWDOWN_RATES.
  repeat match goal with
  | |- context [(?a <=? ?b)%Z] => destruct (Z.leb_spec a b)
  | |- context [(?a <? ?b)%Z] => destruct (Z.ltb_spec a b)
  end; split; intros; try discriminate; try reflexivity; lia.
Qed.

(** C8 (as amended).  For every integer age from 0 to 200,
    [get_min_drawdown_rate] returns the rate of the one band of
    [MIN_DRAWDOWN_RATES] whose closed interval contains the age: exactly one
    band contains it, the lookup returns from inside the loop with that
    band's rate, and the fallback after the loop is not reached. *)
Theorem C8_rate_of_unique_band_up_to_200 (age : Z) :
  (0 <= age <= 200)%Z ->
  exists band,
    In band MIN_DRAWDOWN_RATES /\ band_contains band age
    /\ (forall band', In band' MIN_DRAWDOWN_RATES -> band_contains band' age ->
                      band' = band)
    /\ find_band_rate MIN_DRAWDOWN_RATES age = Some (snd band)
    /\ get_min_drawdown_rate age = snd band.
Proof.
  intros Hage.
  assert (Hex : exists band, In band MIN_DRAWDOWN_RATES /\ band_contains band age
                             /\ find_band_rate MIN_DRAWDOWN_RATES age = Some (snd band)).
  { rewrite find_band_rate_MIN_DRAWDOWN_RATES.
    unfold MIN_DRAWDOWN_RATES, band_contains.
    destruct (Z.ltb_spec age 0); [lia |].
    destruct (Z.leb_spec age 64);
      [exists ((0, 64)%Z, 0.04); simpl; repeat split; auto; lia |].
    destruct (Z.leb_spec age 74);
      [exists ((65, 74)%Z, 0.05); simpl; repeat split; auto; lia |].
    destruct (Z.leb_spec age 79);
      [exists ((75, 79)%Z, 0.06); simpl; repeat split; auto 6; lia |].
    destruct (Z.leb_spec age 84);
      [exists ((80, 84)%Z, 0.07); simpl; repeat split; auto 6; lia |].
    destruct (Z.leb_spec age 89);
      [exists ((85, 89)%Z, 0.09); simpl; repeat split; auto 7; lia |].
    destruct (Z.leb_spec age 94);
      [exists ((90, 94)%Z, 0.11); simpl; repeat split; auto 8; lia |].
    destruct (Z.leb_spec age 200); [| lia].
    exists ((95, 200)%Z, 0.14); simpl; repeat split; auto 9; lia. }
  destruct Hex as (band & Hin & Hc & Hfind).
  exists band. repeat split; try assumption; try apply Hc.
  - intros band' Hin' Hc'. exact (band_containing_unique age band' band Hin' Hin Hc' Hc).
  - unfold get_min_drawdown_rate. now rewrite Hfind.
Qed.

Lemma C8_rate_of_unique_band_up_to_200_witness :
  exists band,
    In band MIN_DRAWDOWN_RATES /\ band_contains band 70
    /\ (forall band', In band' MIN_DRAWDOWN_RATES -> band_contains band' 70 ->
                      band' = band)
    /\ find_band_rate MIN_DRAWDOWN_RATES 70 = Some (snd band)
    /\ get_min_drawdown_rate 70 = snd band.
Proof.
  apply (C8_rate_of_unique_band_up_to_200 70). lia.
Defined.

(** C8 fails as stated: 201 is a non-negative integer age that no band
    contains; the loop falls through and the 0.0 fallback is returned. *)
Lemma C8_fallback_reached_at_201 :
  (0 <= 201)%Z
  /\ (~ exists band, In band MIN_DRAWDOWN_RATES /\ band_contains band 201)
  /\ find_band_rate MIN_DRAWDOWN_RATES 201 = None
  /\ get_min_drawdown_rate 201 = 0.0.
Proof.
  split; [lia |]. split; [| split; reflexivity].
  intros (band & Hin & Hc). revert Hc.
  unfold MIN_DRAWDOWN_RATES in Hin. simpl in Hin.
  repeat (destruct Hin as [<- | Hin]; [unfold band_contains; simpl; lia |]).
  contradiction.
Qed.

(** ** Tax *)

(** The gross tax of the brackets is never negative. *)
Lemma gross_tax_nonneg (taxable_income : Q) : 0 <= gross_tax taxable_income.
Proof.
  unfold gross_tax. q_tests; lra.
Qed.

#[global] Instance gross_tax_comp : Proper (Qeq ==> Qeq) gross_tax.
Proof.
  intros x y E. unfold gross_tax. q_tests; lra.
Qed.

#[global] Instance sapto_offset_comp (s : HouseholdStatus) :
  Proper (Qeq ==> eq ==> Qeq) (sapto_offset s).
Proof.
  intros x y E a ? <-. unfold sapto_offset.
  destruct (AGE_PENSION_ELIGIBILITY_AGE <=? a)%Z; [| reflexivity].
  cbv zeta. q_tests; try (now rewrite E); lra.
Qed.

#[global] Instance tax_after_sapto_comp (s : HouseholdStatus) :
  Proper (Qeq ==> eq ==> Qeq) (tax_after_sapto s).
Proof.
  intros x y E a ? <-. unfold tax_after_sapto. now rewrite E.
Qed.

#[global] Instance medicare_levy_comp (s : HouseholdStatus) :
  Proper (Qeq ==> eq ==> Qeq) (medicare_levy s).
Proof.
  intros x y E b ? <-. unfold medicare_levy.
  destruct b; simpl; q_tests; try (now rewrite E); lra.
Qed.

#[global] Instance calculate_tax_comp (s : HouseholdStatus) :
  Proper (Qeq ==> eq ==> eq ==> Qeq) (calculate_tax s).
Proof.
  intros x y E a ? <- b ? <-. unfold calculate_tax. now rewrite E.
Qed.

(** C6.  The Medicare-levy component of [calculate_tax] is
    [MEDICARE_LEVY_RATE] times the whole taxable income exactly when the
    taxable income exceeds the applicable senior threshold (the status's
    own threshold for a single call, the couple threshold divided by 2 for
    the household-split call, which only a couple projection makes), and 0
    otherwise; the levy is added to the tax after the offset.  In the
    projector a couple's household tax is twice
    [calculate_tax (agePension / 2) age true], a single's is
    [calculate_tax agePension age false], not doubled. *)
Theorem C6_medicare_levy_and_household_split :
  (forall s t, applicable_levy_threshold s false < t ->
               medicare_levy s t false == MEDICARE_LEVY_RATE (CONSTANTS s) * t)
  /\ (forall s t, t <= applicable_levy_threshold s false ->
                  medicare_levy s t false == 0)
  /\ (forall t, applicable_levy_threshold couple true < t ->
                medicare_levy couple t true == MEDICARE_LEVY_RATE (CONSTANTS couple) * t)
  /\ (forall t, t <= applicable_levy_threshold couple true ->
                medicare_levy couple t true == 0)
  /\ (forall s t age b,
        calculate_tax s t age b == tax_after_sapto s t age + medicare_levy s t b)
  /\ (forall r target age cs,
        let y := year_values r target couple age cs in
        yr_taxable_age_pension_for_tax_calc y == yr_annual_age_pension y / 2
        /\ yr_total_tax_payment y
           == 2 * calculate_tax couple (yr_annual_age_pension y / 2) age true)
  /\ (forall r target age cs,
        let y := year_values r target single age cs in
        yr_taxable_age_pension_for_tax_calc y == yr_annual_age_pension y
        /\ yr_total_tax_payment y
           == calculate_tax single (yr_annual_age_pension y) age false).
Proof.
  unfold applicable_levy_threshold, medicare_levy.
  split; [| split; [| split; [| split; [| split; [| split]]]]]; simpl.
  - intros s t H. q_tests; lra.
  - intros s t H. q_tests; lra.
  - intros t H. q_tests; lra.
  - intros t H. q_tests; lra.
  - reflexivity.
  - intros r target age cs. split; [reflexivity | ring].
  - intros r target age cs.
    assert (E : forall x, x / 1 == x) by (intros; field).
    split; [apply E |]. rewrite E. ring.
Qed.

Lemma eligibility_test (age : Z) :
  (AGE_PENSION_ELIGIBILITY_AGE <=? age)%Z = true <-> (67 <= age)%Z.
Proof.
  unfold AGE_PENSION_ELIGIBILITY_AGE. apply Z.leb_le.
Qed.

(** C7.  The SAPTO offset of [calculate_tax] applies only from age 67:
    below it the offset is 0 and the whole gross tax remains.  From 67,
    with taxable income at most the effective threshold the offset is the
    whole gross tax and the tax after the offset is 0; above the threshold
    the offset is [max(0, SAPTO_MAX - (income - threshold) * phase-out)]
    capped at the gross tax.  [calculate_tax(30000, 70, False)] with the
    single constants is 0. *)
Theorem C7_sapto_offset :
  (forall s t age, (age < 67)%Z ->
      sapto_offset s t age == 0 /\ tax_after_sapto s t age == gross_tax t)
  /\ (forall s t age, (67 <= age)%Z ->
        t <= SAPTO_EFFECTIVE_TAX_FREE_THRESHOLD (CONSTANTS s) ->
        sapto_offset s t age == gross_tax t /\ tax_after_sapto s t age == 0)
  /\ (forall s t age, (67 <= age)%Z ->
        SAPTO_EFFECTIVE_TAX_FREE_THRESHOLD (CONSTANTS s) < t ->
        sapto_offset s t age
        == Qmin (Qmax 0 (SAPTO_MAX (CONSTANTS s)
                         - (t - SAPTO_EFFECTIVE_TAX_FREE_THRESHOLD (CONSTANTS s))
                           * SAPTO_PHASE_OUT_RATE (CONSTANTS s)))
                (gross_tax t))
  /\ 30000 <= SAPTO_EFFECTIVE_TAX_FREE_THRESHOLD (CONSTANTS single)
  /\ 30000 <= MEDICARE_LEVY_THRESHOLD_SENIOR (CONSTANTS single)
  /\ calculate_tax single 30000 70 false == 0.
Proof.
  split; [| split; [| split; [| split; [| split]]]].
  - intros s t age Hage.
    assert (E : (AGE_PENSION_ELIGIBILITY_AGE <=? age)%Z = false)
      by (apply Z.leb_gt; unfold AGE_PENSION_ELIGIBILITY_AGE; lia).
    unfold tax_after_sapto, sapto_offset. rewrite E.
    split; [reflexivity |].
    generalize (gross_tax_nonneg t). q_minmax. lra.
  - intros s t age Hage Ht.
    apply eligibility_test in Hage.
    unfold tax_after_sapto, sapto_offset. rewrite Hage. cbv zeta.
    destruct (Qle_bool_cases t (SAPTO_EFFECTIVE_TAX_FREE_THRESHOLD (CONSTANTS s)))
      as [[-> _] | [_ H]]; [| lra].
    split; [reflexivity |]. q_minmax. lra.
  - intros s t age Hage Ht.
    apply eligibility_test in Hage.
    unfold sapto_offset. rewrite Hage. cbv zeta.
    destruct (Qle_bool_cases t (SAPTO_EFFECTIVE_TAX_FREE_THRESHOLD (CONSTANTS s)))
      as [[_ H] | [-> _]]; [lra | reflexivity].
  - simpl. lra.
  - simpl. lra.
  - reflexivity.
Qed.

Lemma C7_sapto_offset_witness :
  (sapto_offset single 30000 60 == 0
   /\ tax_after_sapto single 30000 60 == gross_tax 30000)
  /\ (sapto_offset single 30000 70 == gross_tax 30000
      /\ tax_after_sapto single 30000 70 == 0)
  /\ sapto_offset single 40000 70
     == Qmin (Qmax 0 (SAPTO_MAX (CONSTANTS single)
                      - (40000 - SAPTO_EFFECTIVE_TAX_FREE_THRESHOLD (CONSTANTS single))
                        * SAPTO_PHASE_OUT_RATE (CONSTANTS single)))
             (gross_tax 40000).
Proof.
  destruct C7_sapto_offset as (H1 & H2 & H3 & _).
  split; [| split].
  - apply (H1 single 30000 60%Z). lia.
  - apply (H2 single 30000 70%Z); [lia | simpl; lra].
  - apply (H3 single 40000 70%Z); [lia | simpl; lra].
Defined.

Lemma C6_medicare_levy_and_household_split_witness :
  medicare_levy single 50000 false == MEDICARE_LEVY_RATE (CONSTANTS single) * 50000
  /\ medicare_levy single 43020 false == 0
  /\ medicare_levy couple 30000 true == MEDICARE_LEVY_RATE (CONSTANTS couple) * 30000
  /\ medicare_levy couple 29943 true == 0.
Proof.
  destruct C6_medicare_levy_and_household_split as (H1 & H2 & H3 & H4 & _).
  split; [| split; [| split]].
  - apply (H1 single 50000). vm_compute. reflexivity.
  - apply (H2 single 43020). vm_compute. discriminate.
  - apply (H3 30000). vm_compute. reflexivity.
  - apply (H4 29943). vm_compute. discriminate.
Defined.

(** ** Age Pension tests *)

(** From the eligibility age on, the pension of the year is the smaller of
    the two test results, floored at 0. *)
Lemma annual_age_pension_eligible (s : HouseholdStatus) (age : Z) (cs : Q) :
  (67 <= age)%Z ->
  annual_age_pension s age cs
  = Qmax 0 (Qmin (ap_by_income s (deemed_income s cs)) (ap_by_asset s cs)).
Proof.
  intros H. apply eligibility_test in H.
  unfold annual_age_pension. now rewrite H.
Qed.

Lemma annual_age_pension_ineligible (s : HouseholdStatus) (age : Z) (cs : Q) :
  (age < 67)%Z -> annual_age_pension s age cs = 0.
Proof.
  intros H. unfold annual_age_pension.
  replace (AGE_PENSION_ELIGIBILITY_AGE <=? age)%Z with false; [reflexivity |].
  symmetry. apply Z.leb_gt. unfold AGE_PENSION_ELIGIBILITY_AGE. lia.
Qed.

Lemma annual_age_pension_nonneg (s : HouseholdStatus) (age : Z) (cs : Q) :
  0 <= annual_age_pension s age cs.
Proof.
  unfold annual_age_pension.
  destruct (AGE_PENSION_ELIGIBILITY_AGE <=? age)%Z; [| lra].
  apply Q.le_max_l.
Qed.

(** In both tables the income cut-off is where the linear reduction
    reaches zero. *)
Lemma income_cutoff_is_zero_point (s : HouseholdStatus) :
  INCOME_PART_PENSION_CUTOFF (CONSTANTS s)
  == INCOME_FULL_PENSION (CONSTANTS s)
     + MAX_ANNUAL_AGE_PENSION (CONSTANTS s) / AP_INCOME_REDUCTION_RATE (CONSTANTS s).
Proof.
  destruct s; reflexivity.
Qed.

(** C4.  From age 67 the pension step uses the income-test entitlement
    [ap_by_income] of the deemed income of the balance.  It is the maximum
    pension when the deemed income is at most [INCOME_FULL_PENSION], and
    [max(0, MAX - (deemed - INCOME_FULL_PENSION) * reduction rate)] when it
    is above; it is 0 from [INCOME_PART_PENSION_CUTOFF] on, because in both
    tables the cut-off is [INCOME_FULL_PENSION + MAX / rate] (65416 for a
    single, 99954.40 for a couple), so the explicit zero branch agrees with
    the floored formula. *)
Theorem C4_income_test_entitlement :
  (forall s age cs, (67 <= age)%Z ->
      annual_age_pension s age cs
      = Qmax 0 (Qmin (ap_by_income s (deemed_income s cs)) (ap_by_asset s cs)))
  /\ (forall s deemed, deemed <= INCOME_FULL_PENSION (CONSTANTS s) ->
        ap_by_income s deemed == MAX_ANNUAL_AGE_PENSION (CONSTANTS s))
  /\ (forall s deemed, INCOME_FULL_PENSION (CONSTANTS s) < deemed ->
        ap_by_income s deemed
        == Qmax 0 (MAX_ANNUAL_AGE_PENSION (CONSTANTS s)
                   - (deemed - INCOME_FULL_PENSION (CONSTANTS s))
                     * AP_INCOME_REDUCTION_RATE (CONSTANTS s)))
  /\ (forall s deemed, INCOME_PART_PENSION_CUTOFF (CONSTANTS s) <= deemed ->
        ap_by_income s deemed == 0)
  /\ (forall s,
        INCOME_PART_PENSION_CUTOFF (CONSTANTS s)
        == INCOME_FULL_PENSION (CONSTANTS s)
           + MAX_ANNUAL_AGE_PENSION (CONSTANTS s)
             / AP_INCOME_REDUCTION_RATE (CONSTANTS s))
  /\ INCOME_PART_PENSION_CUTOFF (CONSTANTS single) == 65416
  /\ INCOME_PART_PENSION_CUTOFF (CONSTANTS couple) == 99954.40.
Proof.
  split; [| split; [| split; [| split; [| split; [| split]]]]].
  - exact annual_age_pension_eligible.
  - intros s deemed H. unfold ap_by_income.
    destruct (Qle_bool_cases deemed (INCOME_FULL_PENSION (CONSTANTS s)))
      as [[-> _] | [_ H']]; [reflexivity | lra].
  - intros s deemed H. unfold ap_by_income.
    destruct (Qle_bool_cases deemed (INCOME_FULL_PENSION (CONSTANTS s)))
      as [[_ H'] | [-> _]]; [lra |].
    destruct (Qlt_bool_cases deemed (INCOME_PART_PENSION_CUTOFF (CONSTANTS s)))
      as [[-> _] | [-> Hc]]; [reflexivity |].
    revert H Hc. destruct s; simpl; intros H Hc; q_minmax; lra.
  - intros s deemed H. unfold ap_by_income.
    revert H. destruct s; simpl; intros H; q_tests; try reflexivity; lra.
  - exact income_cutoff_is_zero_point.
  - reflexivity.
  - reflexivity.
Qed.

Lemma C4_income_test_entitlement_witness :
  annual_age_pension single 70 400000
  = Qmax 0 (Qmin (ap_by_income single (deemed_income single 400000))
                 (ap_by_asset single 400000))
  /\ ap_by_income single 5000 == MAX_ANNUAL_AGE_PENSION (CONSTANTS single)
  /\ ap_by_income couple 20000
     == Qmax 0 (MAX_ANNUAL_AGE_PENSION (CONSTANTS couple)
                - (20000 - INCOME_FULL_PENSION (CONSTANTS couple))
                  * AP_INCOME_REDUCTION_RATE (CONSTANTS couple))
  /\ ap_by_income couple 100000 == 0.
Proof.
  destruct C4_income_test_entitlement as (H1 & H2 & H3 & H4 & _).
  split; [| split; [| split]].
  - apply (H1 single 70%Z 400000). lia.
  - apply (H2 single 5000). vm_compute. discriminate.
  - apply (H3 couple 20000). vm_compute. reflexivity.
  - apply (H4 couple 100000). vm_compute. discriminate.
Defined.

(** C2 (as amended).  From age 67 the pension step uses the assets-test
    entitlement [ap_by_asset] of the balance.  For a balance strictly
    between [ASSET_FULL_PENSION] and [ASSET_PART_PENSION_CUTOFF] it is
    [max(0, MAX - 0.0078 * (balance - ASSET_FULL_PENSION))]; from the
    cut-off on it is 0.  For a single at [ASSET_FULL_PENSION + 10000] it is
    29874 - 78 = 29796. *)
Theorem C2_assets_test_taper_below_cutoff :
  (forall s age cs, (67 <= age)%Z ->
      annual_age_pension s age cs
      = Qmax 0 (Qmin (ap_by_income s (deemed_income s cs)) (ap_by_asset s cs)))
  /\ (forall s balance,
        ASSET_FULL_PENSION (CONSTANTS s) < balance ->
        balance < ASSET_PART_PENSION_CUTOFF (CONSTANTS s) ->
        ap_by_asset s balance
        == Qmax 0 (MAX_ANNUAL_AGE_PENSION (CONSTANTS s)
                   - 0.0078 * (balance - ASSET_FULL_PENSION (CONSTANTS s))))
  /\ (forall s balance,
        ASSET_FULL_PENSION (CONSTANTS s) < balance ->
        ASSET_PART_PENSION_CUTOFF (CONSTANTS s) <= balance ->
        ap_by_asset s balance == 0)
  /\ ap_by_asset single (ASSET_FULL_PENSION (CONSTANTS single) + 10000) == 29874 - 78
  /\ 29874 - 78 == 29796.
Proof.
  split; [| split; [| split; [| split]]].
  - exact annual_age_pension_eligible.
  - intros s balance Hlo Hhi. unfold ap_by_asset.
    destruct (Qle_bool_cases balance (ASSET_FULL_PENSION (CONSTANTS s)))
      as [[_ H'] | [-> _]]; [lra |].
    destruct (Qlt_bool_cases balance (ASSET_PART_PENSION_CUTOFF (CONSTANTS s)))
      as [[-> _] | [_ H']]; [| lra].
    apply Q.max_compat; [reflexivity | ring].
  - intros s balance Hlo Hhi. unfold ap_by_asset.
    destruct (Qle_bool_cases balance (ASSET_FULL_PENSION (CONSTANTS s)))
      as [[_ H'] | [-> _]]; [lra |].
    destruct (Qlt_bool_cases balance (ASSET_PART_PENSION_CUTOFF (CONSTANTS s)))
      as [[_ H'] | [-> _]]; [lra | reflexivity].
  - reflexivity.
  - reflexivity.
Qed.

Lemma C2_assets_test_taper_below_cutoff_witness :
  annual_age_pension couple 67 500000
  = Qmax 0 (Qmin (ap_by_income couple (deemed_income couple 500000))
                 (ap_by_asset couple 500000))
  /\ ap_by_asset couple 500000
     == Qmax 0 (MAX_ANNUAL_AGE_PENSION (CONSTANTS couple)
                - 0.0078 * (500000 - ASSET_FULL_PENSION (CONSTANTS couple)))
  /\ ap_by_asset couple 2000000 == 0.
Proof.
  destruct C2_assets_test_taper_below_cutoff as (H1 & H2 & H3 & _).
  split; [| split].
  - apply (H1 couple 67%Z 500000). lia.
  - apply (H2 couple 500000); vm_compute; reflexivity.
  - apply (H3 couple 2000000); vm_compute; [reflexivity | discriminate].
Defined.

(** C2 fails as stated: a single's balance of 704500 is above
    [ASSET_FULL_PENSION], the code's cut-off branch gives 0, and the taper
    formula gives 29874 - 0.0078 * 383000 = 26886.6. *)
Lemma C2_taper_formula_fails_at_cutoff :
  ASSET_FULL_PENSION (CONSTANTS single) < 704500
  /\ ap_by_asset single 704500 == 0
  /\ Qmax 0 (MAX_ANNUAL_AGE_PENSION (CONSTANTS single)
             - 0.0078 * (704500 - ASSET_FULL_PENSION (CONSTANTS single)))
     == 26886.6
  /\ annual_age_pension single 67 704500 == 0
  /\ ~ ap_by_asset single 704500
       == Qmax 0 (MAX_ANNUAL_AGE_PENSION (CONSTANTS single)
                  - 0.0078 * (704500 - ASSET_FULL_PENSION (CONSTANTS single))).
Proof.
  split; [| split; [| split; [| split]]]; try reflexivity.
  vm_compute. discriminate.
Qed.

(** ** The loop over ages *)

Lemma range_nil (start stop : Z) : (stop <= start)%Z -> range start stop = [].
Proof.
  intros H. unfold range. replace (Z.to_nat (stop - start)) with 0%nat by lia.
  reflexivity.
Qed.

Lemma range_cons (start stop : Z) :
  (start < stop)%Z -> range start stop = start :: range (start + 1) stop.
Proof.
  intros H. unfold range.
  replace (Z.to_nat (stop - start)) with (S (Z.to_nat (stop - (start + 1)))) by lia.
  simpl. f_equal; [lia |].
  rewrite <- seq_shift, map_map. apply map_ext. intros i. lia.
Qed.

Lemma range_length (start stop : Z) :
  length (range start stop) = Z.to_nat (stop - start).
Proof.
  unfold range. now rewrite length_map, length_seq.
Qed.

Lemma range_nth_error (start stop : Z) (i : nat) :
  nth_error (range start stop) i =
    if (Z.of_nat i <? stop - start)%Z then Some (start + Z.of_nat i)%Z else None.
Proof.
  unfold range. rewrite nth_error_map.
  destruct (Z.ltb_spec (Z.of_nat i) (stop - start)) as [H | H].
  - rewrite nth_error_seq.
    replace (i <? Z.to_nat (stop - start))%nat with true
      by (symmetry; apply Nat.ltb_lt; lia).
    reflexivity.
  - replace (nth_error (seq 0 (Z.to_nat (stop - start))) i) with (@None nat);
      [reflexivity |].
    symmetry. apply nth_error_None. rewrite length_seq. lia.
Qed.

Section LoopFacts.

Variables (end_age : Z) (super_return_rate target_after_tax_income : Q).
Variable relationship_status : HouseholdStatus.

Let year := year_values super_return_rate target_after_tax_income relationship_status.
Let run := run_years end_age super_return_rate target_after_tax_income relationship_status.
Let stops (y : YearValues) : bool :=
  depleted_early end_age y && income_ceased target_after_tax_income y.
Let carried (y : YearValues) : Q :=
  if depleted_early end_age y then 0 else yr_end_super y.

(** One unfolding of the loop. *)
Lemma run_years_cons (age : Z) (rest : list Z) (cs : Q) :
  run (age :: rest) cs =
    if stops (year age cs) then ([year age cs], true)
    else (year age cs :: fst (run rest (carried (year age cs))),
          snd (run rest (carried (year age cs)))).
Proof.
  unfold run, stops, carried, year. simpl.
  destruct (depleted_early _ _); simpl; [| reflexivity].
  destruct (income_ceased _ _); reflexivity.
Qed.

(** The first year computed is the first age on the current balance. *)
Lemma run_years_head (ages : list Z) (cs : Q) :
  nth_error (fst (run ages cs)) 0 =
    option_map (fun age => year age cs) (nth_error ages 0).
Proof.
  destruct ages as [| age rest]; [reflexivity |].
  rewrite run_years_cons. destruct (stops _); reflexivity.
Qed.

(** Every year computed is the loop body at the age of its position. *)
Lemma run_years_nth (ages : list Z) :
  forall (cs : Q) (i : nat) (y : YearValues),
    nth_error (fst (run ages cs)) i = Some y ->
    exists age cs_i, nth_error ages i = Some age /\ y = year age cs_i.
Proof.
  induction ages as [| age rest IH]; intros cs i y H.
  - destruct i; discriminate.
  - rewrite run_years_cons in H.
    destruct i as [| i].
    + exists age, cs. split; [reflexivity |].
      destruct (stops _); simpl in H; congruence.
    + destruct (stops _); simpl in H.
      * destruct i; discriminate.
      * apply IH in H. exact H.
Qed.

(** What follows a computed year: nothing after [break]; otherwise the
    body at the next age, on the carried balance. *)
Lemma run_years_next (ages : list Z) :
  forall (cs : Q) (i : nat) (y : YearValues),
    nth_error (fst (run ages cs)) i = Some y ->
    nth_error (fst (run ages cs)) (S i) =
      if stops y then None
      else option_map (fun age => year age (carried y)) (nth_error ages (S i)).
Proof.
  induction ages as [| age rest IH]; intros cs i y H.
  - destruct i; discriminate.
  - rewrite run_years_cons in H |- *.
    destruct i as [| i].
    + destruct (stops (year age cs)) eqn:E; simpl in H;
        injection H as <-; rewrite E; simpl; [reflexivity |].
      apply run_years_head.
    + destruct (stops (year age cs)) eqn:E; simpl in H.
      * destruct i; discriminate.
      * simpl. apply IH. exact H.
Qed.

(** The loop runs at most once per age, and through all of them exactly
    when it does not [break].  The ages are those still to simulate,
    [range a (end_age + 1)]. *)
Lemma run_years_length (n : nat) :
  forall (a : Z) (cs : Q),
    Z.to_nat (end_age + 1 - a) = n ->
    (length (fst (run (range a (end_age + 1)) cs)) <= n)%nat
    /\ (length (fst (run (range a (end_age + 1)) cs)) = n
        <-> snd (run (range a (end_age + 1)) cs) = false).
Proof.
  induction n as [| n IH]; intros a cs Hn.
  - rewrite range_nil by lia. simpl. split; [lia | tauto].
  - rewrite range_cons by lia. rewrite run_years_cons.
    destruct (stops (year a cs)) eqn:E.
    + simpl. split; [lia |]. split; [| discriminate].
      intros Hlen. exfalso.
      unfold stops, depleted_early in E.
      apply andb_prop in E. destruct E as [E _].
      apply andb_prop in E. destruct E as [_ E].
      apply Z.ltb_lt in E. unfold year in E. simpl in E. lia.
    + simpl. destruct (IH (a + 1)%Z (carried (year a cs))) as [Hle Hiff]; [lia |].
      split; [lia |]. rewrite <- Hiff. split; intros; lia.
Qed.

Hypothesis rate_nonneg : 0 <= super_return_rate.

(** The withdrawal of a year never exceeds a non-negative balance, and
    what is left grows to a non-negative balance. *)
Lemma year_values_balance (age : Z) (cs : Q) :
  0 <= cs ->
  0 <= yr_annual_super_withdrawal (year age cs)
  /\ yr_annual_super_withdrawal (year age cs) <= cs
  /\ 0 <= yr_end_super (year age cs).
Proof.
  intros Hcs. unfold year, year_values. cbn [yr_annual_super_withdrawal yr_end_super].
  set (w := Qmax 0 _).
  assert (Hw : 0 <= w /\ w <= cs).
  { subst w. destruct (Qle_bool _ _); q_minmax; lra. }
  destruct Hw as [Hw0 Hw1]. split; [exact Hw0 | split; [exact Hw1 |]]. nra.
Qed.

Lemma carried_nonneg (age : Z) (cs : Q) : 0 <= cs -> 0 <= carried (year age cs).
Proof.
  intros Hcs. unfold carried.
  destruct (depleted_early _ _); [lra |].
  apply (year_values_balance age cs Hcs).
Qed.

(** Every year of a run from a non-negative balance starts from a
    non-negative balance. *)
Lemma run_years_balance (ages : list Z) :
  forall (cs : Q), 0 <= cs ->
    Forall (fun y => 0 <= yr_current_super y
                     /\ 0 <= yr_annual_super_withdrawal y
                     /\ yr_annual_super_withdrawal y <= yr_current_super y
                     /\ 0 <= yr_end_super y)
           (fst (run ages cs)).
Proof.
  induction ages as [| age rest IH]; intros cs Hcs.
  - constructor.
  - rewrite run_years_cons.
    assert (Hy := year_values_balance age cs Hcs).
    assert (Hhead : 0 <= yr_current_super (year age cs)
                    /\ 0 <= yr_annual_super_withdrawal (year age cs)
                    /\ yr_annual_super_withdrawal (year age cs)
                       <= yr_current_super (year age cs)
                    /\ 0 <= yr_end_super (year age cs)).
    { split; [exact Hcs | exact Hy]. }
    destruct (stops _); simpl.
    + constructor; [exact Hhead | constructor].
    + constructor; [exact Hhead |].
      apply IH. apply carried_nonneg. exact Hcs.
Qed.

End LoopFacts.

(** ** Display rounding *)

Lemma round_half_even_bounds (q : Q) :
  (Qfloor q <= round_half_even q <= Qfloor q + 1)%Z.
Proof.
  unfold round_half_even. cbv zeta.
  destruct (Qlt_bool _ _); [lia |].
  destruct (Qlt_bool _ _); [lia |].
  destruct (Z.even _); lia.
Qed.

Lemma round_half_even_le (x y : Q) :
  x <= y -> (round_half_even x <= round_half_even y)%Z.
Proof.
  intros H.
  assert (Hf := Qfloor_resp_le x y H).
  destruct (Z.eq_dec (Qfloor x) (Qfloor y)) as [E | E].
  - unfold round_half_even. cbv zeta. rewrite E.
    generalize (Qfloor y). intros f.
    q_tests; try lia; try (exfalso; lra); destruct (Z.even f); lia.
  - assert (Hx := round_half_even_bounds x).
    assert (Hy := round_half_even_bounds y). lia.
Qed.

#[global] Instance round_half_even_comp : Proper (Qeq ==> eq) round_half_even.
Proof.
  intros x y E. apply Z.le_antisymm; apply round_half_even_le; lra.
Qed.

#[global] Instance round2_comp : Proper (Qeq ==> Qeq) round2.
Proof.
  intros x y E. unfold round2. now rewrite E.
Qed.

Lemma round2_le (x y : Q) : x <= y -> round2 x <= round2 y.
Proof.
  intros H. unfold round2.
  assert (Hr : (round_half_even (x * 100) <= round_half_even (y * 100))%Z)
    by (apply round_half_even_le; lra).
  rewrite Zle_Qle in Hr. unfold Qdiv.
  apply Qmult_le_compat_r; [exact Hr | discriminate].
Qed.

Lemma round2_zero : round2 0 == 0.
Proof.
  reflexivity.
Qed.

Lemma round2_nonneg (x : Q) : 0 <= x -> 0 <= round2 x.
Proof.
  intros H. rewrite <- round2_zero. now apply round2_le.
Qed.

(** ** Facts about one year *)

(** The withdrawal is clamped into [0, balance] whatever the rate. *)
Lemma year_values_withdrawal (r target : Q) (s : HouseholdStatus) (age : Z) (cs : Q) :
  0 <= cs ->
  0 <= yr_annual_super_withdrawal (year_values r target s age cs)
  /\ yr_annual_super_withdrawal (year_values r target s age cs) <= cs.
Proof.
  intros Hcs. unfold year_values. cbn [yr_annual_super_withdrawal].
  destruct (Qle_bool _ _); q_minmax; lra.
Qed.

(** The roll-forward of the balance, on the unrounded amounts. *)
Lemma year_values_end_super (r target : Q) (s : HouseholdStatus) (age : Z) (cs : Q) :
  yr_end_super (year_values r target s age cs)
  == (yr_current_super (year_values r target s age cs)
      - yr_annual_super_withdrawal (year_values r target s age cs)) * (1 + r).
Proof.
  unfold year_values.
  cbn [yr_end_super yr_current_super yr_annual_super_withdrawal]. ring.
Qed.

(** Before the eligibility age there is no pension, hence no tax. *)
Lemma no_pension_no_tax (s : HouseholdStatus) (age : Z) :
  (age < 67)%Z ->
  calculate_tax s (0 / (if status_eqb s couple then 2 else 1)) age (status_eqb s couple)
  == 0.
Proof.
  intros H.
  assert (E : (AGE_PENSION_ELIGIBILITY_AGE <=? age)%Z = false)
    by (apply Z.leb_gt; unfold AGE_PENSION_ELIGIBILITY_AGE; lia).
  unfold calculate_tax, tax_after_sapto, sapto_offset. rewrite E.
  destruct s; reflexivity.
Qed.

(** A year before the eligibility age on an empty balance: no pension,
    no income, nothing left. *)
Lemma year_values_unfunded (r target : Q) (s : HouseholdStatus) (age : Z) (cs : Q) :
  (age < 67)%Z -> cs == 0 ->
  yr_annual_age_pension (year_values r target s age cs) = 0
  /\ yr_total_income_after_tax (year_values r target s age cs) == 0
  /\ yr_end_super (year_values r target s age cs) == 0.
Proof.
  intros Hage Hcs.
  assert (Hw := year_values_withdrawal r target s age cs).
  assert (He := year_values_end_super r target s age cs).
  revert Hw He. unfold year_values.
  cbn [yr_annual_age_pension yr_total_income_after_tax yr_end_super
       yr_current_super yr_annual_super_withdrawal].
  rewrite (annual_age_pension_ineligible s age cs Hage).
  assert (Htax := no_pension_no_tax s age Hage). revert Htax.
  generalize (calculate_tax s (0 / (if status_eqb s couple then 2 else 1)) age
                (status_eqb s couple)).
  intros tax Htax.
  match goal with |- context [Qmax 0 ?x] => generalize (Qmax 0 x) end.
  intros w Hw He. split; [reflexivity |].
  destruct Hw as [Hw0 Hw1]; [lra |].
  assert (Ew : w == 0) by lra.
  split.
  - rewrite Ew, Htax. ring.
  - rewrite He, Ew, Hcs. ring.
Qed.

(** ** The projection *)

Section ProjectionFacts.

Variables (start_super : Q) (start_age end_age : Z) (super_return_rate : Q).
Variables (target_after_tax_income : Q) (relationship_status : HouseholdStatus).

Let years :=
  projected_years start_super start_age end_age super_return_rate
    target_after_tax_income relationship_status.
Let rows :=
  project_retirement_income start_super start_age end_age super_return_rate
    target_after_tax_income relationship_status.

Lemma rows_nth_error (i : nat) :
  nth_error rows i = option_map year_result (nth_error years i).
Proof.
  unfold rows, project_retirement_income. apply nth_error_map.
Qed.

Lemma rows_length : length rows = length years.
Proof.
  unfold rows, project_retirement_income. apply length_map.
Qed.

(** The year at position [i] is the loop body at age [start_age + i]. *)
Lemma years_nth_age (i : nat) (y : YearValues) :
  nth_error years i = Some y ->
  yr_age y = (start_age + Z.of_nat i)%Z
  /\ (start_age + Z.of_nat i <= end_age)%Z
  /\ exists cs, y = year_values super_return_rate target_after_tax_income
                      relationship_status (start_age + Z.of_nat i) cs.
Proof.
  intros H. apply run_years_nth in H. destruct H as (age & cs & Hage & ->).
  rewrite range_nth_error in Hage.
  destruct (Z.ltb_spec (Z.of_nat i) (end_age + 1 - start_age)); [| discriminate].
  injection Hage as <-. split; [reflexivity |]. split; [lia |]. now exists cs.
Qed.

(** What follows the year at position [i]. *)
Lemma years_next (i : nat) (y : YearValues) :
  nth_error years i = Some y ->
  (yr_age y < end_age)%Z ->
  nth_error years (S i) =
    if Qle_bool (yr_end_super y) 0
       && (Qeq_bool (yr_annual_age_pension y) 0
           && Qlt_bool (yr_total_income_after_tax y) target_after_tax_income)
    then None
    else Some (year_values super_return_rate target_after_tax_income
                 relationship_status (yr_age y + 1)
                 (if Qle_bool (yr_end_super y) 0 then 0 else yr_end_super y)).
Proof.
  intros H Hlt.
  destruct (years_nth_age i y H) as (Hage & _ & _).
  unfold years, projected_years in H |- *.
  rewrite (run_years_next _ _ _ _ _ _ _ _ H).
  unfold depleted_early, income_ceased.
  replace (yr_age y <? end_age)%Z with true by (symmetry; apply Z.ltb_lt; lia).
  rewrite andb_true_r, range_nth_error.
  replace (Z.of_nat (S i) <? end_age + 1 - start_age)%Z with true
    by (symmetry; apply Z.ltb_lt; lia).
  replace (start_age + Z.of_nat (S i))%Z with (yr_age y + 1)%Z by lia.
  reflexivity.
Qed.

Lemma years_balance :
  0 <= start_super -> 0 <= super_return_rate ->
  forall y, In y years ->
    0 <= yr_current_super y
    /\ 0 <= yr_annual_super_withdrawal y
    /\ yr_annual_super_withdrawal y <= yr_current_super y
    /\ 0 <= yr_end_super y.
Proof.
  intros H0 Hr. apply Forall_forall.
  unfold years, projected_years. now apply run_years_balance.
Qed.

End ProjectionFacts.

(** C10.  With a non-negative starting balance and a non-negative return
    rate, every year of the projection withdraws between 0 and the balance
    it starts from, starts from a non-negative balance and ends on a
    non-negative balance; the rows returned, rounded to cents, satisfy the
    same bounds. *)
Theorem C10_withdrawal_within_balance
  (start_super : Q) (start_age end_age : Z) (super_return_rate : Q)
  (target_after_tax_income : Q) (relationship_status : HouseholdStatus) :
  0 <= start_super -> 0 <= super_return_rate ->
  (forall y,
      In y (projected_years start_super start_age end_age super_return_rate
              target_after_tax_income relationship_status) ->
      0 <= yr_annual_super_withdrawal y <= yr_current_super y
      /\ 0 <= yr_current_super y
      /\ 0 <= yr_end_super y)
  /\ (forall row,
        In row (project_retirement_income start_super start_age end_age
                  super_return_rate target_after_tax_income relationship_status) ->
        0 <= Annual_Super_Withdrawal row <= Start_Super row
        /\ 0 <= Start_Super row
        /\ 0 <= End_Super row).
Proof.
  intros H0 Hr.
  assert (Hy := years_balance start_super start_age end_age super_return_rate
                  target_after_tax_income relationship_status H0 Hr).
  split.
  - intros y Hin. destruct (Hy y Hin) as (A & B & C & D). tauto.
  - intros row Hin. unfold project_retirement_income in Hin.
    apply in_map_iff in Hin. destruct Hin as (y & <- & Hin).
    destruct (Hy y Hin) as (A & B & C & D). simpl.
    repeat apply conj; first [now apply round2_nonneg | now apply round2_le].
Qed.

Lemma C10_withdrawal_within_balance_witness :
  (forall y, In y (projected_years 950000 65 70 0.04 60000 single) ->
             0 <= yr_annual_super_withdrawal y <= yr_current_super y
             /\ 0 <= yr_current_super y
             /\ 0 <= yr_end_super y)
  /\ (forall row, In row (project_retirement_income 950000 65 70 0.04 60000 single) ->
                  0 <= Annual_Super_Withdrawal row <= Start_Super row
                  /\ 0 <= Start_Super row
                  /\ 0 <= End_Super row).
Proof.
  apply (C10_withdrawal_within_balance 950000 65 70 0.04 60000 single).
  - vm_compute. discriminate.
  - vm_compute. discriminate.
Defined.



(** C3.  After the year computed for an age strictly below [end_age]:
    no further year follows exactly when the end balance is at most 0,
    the year's Age Pension is 0 and its after-tax income is below the
    target; otherwise the next age follows, starting from 0 when the end
    balance was at most 0 (the clamp) and from the end balance otherwise.
    In particular a projection from a zero balance with a positive target
    and [start_age < 67 <= end_age] returns exactly one row. *)
Theorem C3_early_termination
  (start_super : Q) (start_age end_age : Z) (super_return_rate : Q)
  (target_after_tax_income : Q) (relationship_status : HouseholdStatus) :
  (forall i y,
      nth_error (projected_years start_super start_age end_age super_return_rate
                   target_after_tax_income relationship_status) i = Some y ->
      (yr_age y < end_age)%Z ->
      (nth_error (project_retirement_income start_super start_age end_age
                    super_return_rate target_after_tax_income relationship_status)
         (S i) = None
       <-> yr_end_super y <= 0
           /\ yr_annual_age_pension y == 0
           /\ yr_total_income_after_tax y < target_after_tax_income)
      /\ (forall y',
            nth_error (projected_years start_super start_age end_age super_return_rate
                         target_after_tax_income relationship_status) (S i) = Some y' ->
            yr_age y' = (yr_age y + 1)%Z
            /\ (yr_end_super y <= 0 -> yr_current_super y' = 0)
            /\ (0 < yr_end_super y -> yr_current_super y' = yr_end_super y)))
  /\ (start_super == 0 -> 0 < target_after_tax_income ->
      (start_age < 67 <= end_age)%Z ->
      length (project_retirement_income start_super start_age end_age
                super_return_rate target_after_tax_income relationship_status)
      = 1%nat).
Proof.
  split.
  - intros i y Hy Hlt.
    assert (Hnext := years_next _ _ _ _ _ _ i y Hy Hlt).
    rewrite rows_nth_error, Hnext. clear Hnext.
    destruct (Qle_bool_cases (yr_end_super y) 0) as [[-> Hend] | [-> Hend]];
      destruct (Qeq_bool_cases (yr_annual_age_pension y) 0) as [[-> Hap] | [-> Hap]];
      destruct (Qlt_bool_cases (yr_total_income_after_tax y) target_after_tax_income)
        as [[-> Hinc] | [-> Hinc]];
      simpl; (split; [split |]);
      try discriminate; try tauto;
      try (intros (A & B & C); exfalso; first [lra | tauto]);
      try (intros y' Hy'; injection Hy' as <-;
           cbn [yr_age yr_current_super year_values];
           split; [reflexivity | split; [intros; try reflexivity; lra
                                        | intros; try reflexivity; lra]]).
  - intros H0 Htarget [Hlo Hhi].
    rewrite rows_length. unfold projected_years.
    rewrite range_cons by lia. rewrite run_years_cons.
    destruct (year_values_unfunded super_return_rate target_after_tax_income
                relationship_status start_age start_super Hlo H0)
      as (Hap & Hinc & Hend).
    replace (depleted_early end_age _ && income_ceased target_after_tax_income _)
      with true; [reflexivity |].
    symmetry. unfold depleted_early, income_ceased.
    rewrite Hap.
    repeat (apply andb_true_intro; split).
    + apply Qle_bool_iff. lra.
    + apply Z.ltb_lt. cbn [yr_age year_values]. lia.
    + reflexivity.
    + apply Qlt_bool_iff. lra.
Qed.

Lemma C3_early_termination_witness :
  ((nth_error (project_retirement_income 0 60 70 0.04 50000 single) 1 = None
    <-> yr_end_super (year_values 0.04 50000 single 60 0) <= 0
        /\ yr_annual_age_pension (year_values 0.04 50000 single 60 0) == 0
        /\ yr_total_income_after_tax (year_values 0.04 50000 single 60 0) < 50000)
   /\ (forall y',
         nth_error (projected_years 0 60 70 0.04 50000 single) 1 = Some y' ->
         yr_age y' = (yr_age (year_values 0.04 50000 single 60 0) + 1)%Z
         /\ (yr_end_super (year_values 0.04 50000 single 60 0) <= 0 ->
             yr_current_super y' = 0)
         /\ (0 < yr_end_super (year_values 0.04 50000 single 60 0) ->
             yr_current_super y' = yr_end_super (year_values 0.04 50000 single 60 0))))
  /\ length (project_retirement_income 0 60 70 0.04 50000 single) = 1%nat.
Proof.
  destruct (C3_early_termination 0 60 70 0.04 50000 single) as [H1 H2].
  split.
  - apply (H1 0%nat (year_values 0.04 50000 single 60 0)).
    + reflexivity.
    + vm_compute. reflexivity.
  - apply H2.
    + reflexivity.
    + vm_compute. reflexivity.
    + lia.
Defined.

(** C5 (as amended).  [project_retirement_income] returns one row per
    simulated age, in order, for the consecutive ages from [start_age],
    none beyond [end_age]; its length is at most
    [max(0, end_age - start_age + 1)], with equality exactly when the loop
    did not leave through [break]; and the list is empty exactly when
    [start_age > end_age]. *)
Theorem C5_one_row_per_simulated_age
  (start_super : Q) (start_age end_age : Z) (super_return_rate : Q)
  (target_after_tax_income : Q) (relationship_status : HouseholdStatus) :
  (forall i row,
      nth_error (project_retirement_income start_super start_age end_age
                   super_return_rate target_after_tax_income relationship_status) i
      = Some row ->
      Age row = (start_age + Z.of_nat i)%Z /\ (Age row <= end_age)%Z)
  /\ (Z.of_nat (length (project_retirement_income start_super start_age end_age
                          super_return_rate target_after_tax_income relationship_status))
      <= Z.max 0 (end_age - start_age + 1))%Z
  /\ (Z.of_nat (length (project_retirement_income start_super start_age end_age
                          super_return_rate target_after_tax_income relationship_status))
      = Z.max 0 (end_age - start_age + 1)
      <-> terminated_early start_super start_age end_age super_return_rate
            target_after_tax_income relationship_status = false)
  /\ (project_retirement_income start_super start_age end_age
        super_return_rate target_after_tax_income relationship_status = []
      <-> (end_age < start_age)%Z).
Proof.
  split; [| split; [| split]].
  - intros i row H. rewrite rows_nth_error in H.
    destruct (nth_error _ i) as [y |] eqn:Hy; [| discriminate].
    injection H as <-. simpl.
    destruct (years_nth_age _ _ _ _ _ _ i y Hy) as (Hage & Hle & _).
    rewrite Hage. split; [reflexivity | exact Hle].
  - rewrite rows_length. unfold projected_years.
    destruct (run_years_length end_age super_return_rate target_after_tax_income
                relationship_status _ start_age start_super eq_refl) as [Hle _].
    lia.
  - rewrite rows_length. unfold projected_years, terminated_early.
    destruct (run_years_length end_age super_return_rate target_after_tax_income
                relationship_status _ start_age start_super eq_refl) as [_ Hiff].
    rewrite <- Hiff. lia.
  - unfold project_retirement_income, projected_years. split.
    + intros H. destruct (Z_lt_le_dec end_age start_age) as [Hlt | Hle]; [exact Hlt |].
      exfalso. revert H. rewrite range_cons by lia. rewrite run_years_cons.
      destruct (_ && _); discriminate.
    + intros H. rewrite range_nil by lia. reflexivity.
Qed.

Lemma C5_one_row_per_simulated_age_witness :
  Age (year_result (year_values 0.04 60000 single 65 950000)) = (65 + Z.of_nat 0)%Z
  /\ (Age (year_result (year_values 0.04 60000 single 65 950000)) <= 70)%Z.
Proof.
  apply (proj1 (C5_one_row_per_simulated_age 950000 65 70 0.04 60000 single) 0%nat).
  reflexivity.
Defined.

(** C5 fails as stated: with [start_age = 10] and [end_age = 5] the list
    is empty and the loop never breaks, yet its length 0 is neither at most
    nor equal to [end_age - start_age + 1 = -4]. *)
Lemma C5_length_bound_fails_for_reversed_ages :
  project_retirement_income 100000 10 5 0.04 60000 single = []
  /\ terminated_early 100000 10 5 0.04 60000 single = false
  /\ ~ (Z.of_nat (length (project_retirement_income 100000 10 5 0.04 60000 single))
        <= 5 - 10 + 1)%Z.
Proof.
  split; [reflexivity | split; [reflexivity |]].
  vm_compute. intros H. apply H. reflexivity.
Qed.

(** ** Years to reach a target *)

(** The [while] loop with enough fuel: it stops after some [k] more years,
    on the balance grown [k] times, having seen only balances below the
    target before, and either at the target or at the cap. *)
Lemma while_below_target_spec (target c r : Q) (fuel : nat) :
  forall (years age : Z) (balance : Q),
    (0 <= years <= 100)%Z -> (100 - years <= Z.of_nat fuel)%Z ->
    exists k : nat,
      while_below_target target c r fuel years age balance
      = Some ((years + Z.of_nat k)%Z, (age + Z.of_nat k)%Z, grow_years c r k balance)
      /\ (years + Z.of_nat k <= 100)%Z
      /\ (forall j : nat, (j < k)%nat -> grow_years c r j balance < target)
      /\ ((years + Z.of_nat k = 100)%Z \/ target <= grow_years c r k balance).
Proof.
  induction fuel as [| fuel IH]; intros years age balance Hy Hfuel.
  - exists 0%nat. simpl.
    replace (years <? max_years_projection)%Z with false
      by (symmetry; apply Z.ltb_ge; unfold max_years_projection; lia).
    rewrite andb_false_r, !Z.add_0_r.
    split; [reflexivity |]. split; [lia |]. split; [intros j Hj; lia |]. left. lia.
  - simpl.
    destruct (Qlt_bool_cases balance target) as [[-> Hb] | [-> Hb]]; simpl.
    + destruct (Z.ltb_spec years max_years_projection) as [Hlt | Hge].
      * unfold max_years_projection in Hlt.
        destruct (IH (years + 1)%Z (age + 1)%Z (grow_one_year c r balance))
          as (k & Hres & Hle & Hbelow & Hexit); [lia | lia |].
        exists (S k). rewrite Hres.
        split; [do 3 f_equal; lia |]. split; [lia |]. split.
        -- intros [| j] Hj; [exact Hb | apply Hbelow; lia].
        -- destruct Hexit as [Hexit | Hexit]; [left; lia | right; exact Hexit].
      * unfold max_years_projection in Hge.
        exists 0%nat. rewrite !Z.add_0_r.
        split; [reflexivity |]. split; [lia |]. split; [intros j Hj; lia |]. left. lia.
    + exists 0%nat. rewrite !Z.add_0_r.
      split; [reflexivity |]. split; [lia |]. split; [intros j Hj; lia |].
      right. exact Hb.
Qed.

(** The part of [years_to_reach_target_super] after the two guards, when
    the balance starts below the target. *)
Lemma loop_and_cap_check (start_age : Z) (b target c r : Q) :
  b < target ->
  exists k : nat,
    (1 <= k <= 100)%nat
    /\ (forall j : nat, (j < k)%nat -> grow_years c r j b < target)
    /\ ((k = 100%nat /\ grow_years c r k b < target
         /\ match while_below_target target c r (Z.to_nat max_years_projection)
                  0 start_age b with
            | None => None
            | Some (years, age, balance) =>
                if (years =? max_years_projection)%Z && Qlt_bool balance target
                then Some (Infinity, Infinity, balance)
                else Some (Finite years, Finite age, balance)
            end = Some (Infinity, Infinity, grow_years c r k b))
        \/ (target <= grow_years c r k b
            /\ match while_below_target target c r (Z.to_nat max_years_projection)
                     0 start_age b with
               | None => None
               | Some (years, age, balance) =>
                   if (years =? max_years_projection)%Z && Qlt_bool balance target
                   then Some (Infinity, Infinity, balance)
                   else Some (Finite years, Finite age, balance)
               end = Some (Finite (Z.of_nat k), Finite (start_age + Z.of_nat k),
                           grow_years c r k b))).
Proof.
  intros Hbelow.
  destruct (while_below_target_spec target c r (Z.to_nat max_years_projection)
              0%Z start_age b)
    as (k & -> & Hk & Hseen & Hexit);
    [lia | unfold max_years_projection; lia |].
  rewrite Z.add_0_l in *.
  assert (Hpos : (1 <= k)%nat).
  { destruct k; [| lia]. simpl in Hexit. destruct Hexit; [lia | lra]. }
  exists k. split; [lia |]. split; [exact Hseen |].
  unfold max_years_projection.
  destruct (Z.eqb_spec (Z.of_nat k) 100) as [Hcap | Hcap];
    destruct (Qlt_bool_cases (grow_years c r k b) target) as [[-> Hfin] | [-> Hfin]];
    cbn [andb].
  - left. split; [lia |]. split; [exact Hfin | reflexivity].
  - right. split; [exact Hfin | reflexivity].
  - exfalso. destruct Hexit; [lia | lra].
  - right. split; [exact Hfin | reflexivity].
Qed.

(** C9.  [years_to_reach_target_super] always returns.  It returns
    [(0, start_age, balance)] exactly when the target is at most the
    balance.  It returns the unreachable sentinel (years and age both
    infinite) exactly when the target is above the balance and either the
    contribution and the return rate are both at most 0, and then the
    balance returned is the input balance, or the cap of 100 iterations is
    reached with the balance still below the target, and then the balance
    returned is the one reached at the cap.  In every other case it returns
    a number of years between 1 and 100, the age that many years later,
    and a final balance that is at least the target. *)
Theorem C9_years_to_reach_target
  (start_age : Z) (current_balance target_balance : Q)
  (annual_contribution annual_return_rate : Q) :
  exists years age final,
    years_to_reach_target_super start_age current_balance target_balance
      annual_contribution annual_return_rate = Some (years, age, final)
    /\ ((years, age, final) = (Finite 0, Finite start_age, current_balance)
        <-> target_balance <= current_balance)
    /\ (years = Infinity <-> age = Infinity)
    /\ (years = Infinity
        <-> current_balance < target_balance
            /\ ((annual_contribution <= 0 /\ annual_return_rate <= 0)
                \/ cap_reached current_balance target_balance
                     annual_contribution annual_return_rate))
    /\ (years = Infinity ->
        annual_contribution <= 0 /\ annual_return_rate <= 0 ->
        final = current_balance)
    /\ (years = Infinity ->
        ~ (annual_contribution <= 0 /\ annual_return_rate <= 0) ->
        final = calculate_super_growth current_balance annual_contribution
                  annual_return_rate 100
        /\ final < target_balance)
    /\ (current_balance < target_balance -> years <> Infinity ->
        exists n : Z,
          (1 <= n <= 100)%Z
          /\ years = Finite n /\ age = Finite (start_age + n)
          /\ final = calculate_super_growth current_balance annual_contribution
                       annual_return_rate n
          /\ target_balance <= final).
Proof.
  unfold years_to_reach_target_super.
  destruct (Qle_bool_cases target_balance current_balance) as [[-> Hmet] | [-> Hbelow]].
  { exists (Finite 0), (Finite start_age), current_balance.
    split; [reflexivity |]. split; [tauto |].
    split; [split; discriminate |].
    split; [split; [discriminate | intros [H _]; lra] |].
    split; [discriminate |]. split; [discriminate |].
    intros H. lra. }
  destruct (Qle_bool annual_contribution 0 && Qle_bool annual_return_rate 0) eqn:Eguard.
  { apply andb_prop in Eguard. destruct Eguard as [Hc Hr].
    apply Qle_bool_iff in Hc. apply Qle_bool_iff in Hr.
    exists Infinity, Infinity, current_balance.
    split; [reflexivity |].
    split; [split; [discriminate | intros H; lra] |].
    split; [tauto |].
    split; [split; [intros _; split; [exact Hbelow | left; split; assumption]
                   | reflexivity] |].
    split; [reflexivity |].
    split; [intros _ H; exfalso; apply H; split; assumption |].
    intros _ H. now contradiction H. }
  assert (Hnot : ~ (annual_contribution <= 0 /\ annual_return_rate <= 0)).
  { intros [Hc Hr]. apply Qle_bool_iff in Hc. apply Qle_bool_iff in Hr.
    rewrite Hc, Hr in Eguard. discriminate. }
  destruct (loop_and_cap_check start_age current_balance target_balance
              annual_contribution annual_return_rate Hbelow)
    as (k & Hk & Hseen & [(Hcap & Hfin & ->) | (Hfin & ->)]).
  - exists Infinity, Infinity,
      (grow_years annual_contribution annual_return_rate k current_balance).
    split; [reflexivity |].
    split; [split; [discriminate | intros H; lra] |].
    split; [tauto |].
    split.
    { split; [| reflexivity]. intros _. split; [exact Hbelow |]. right.
      intros j Hj. destruct (Nat.eq_dec j k) as [-> | Hne];
        [exact Hfin | apply Hseen; lia]. }
    split; [intros _ H; now contradiction Hnot |].
    split.
    { intros _ _. split; [| exact Hfin].
      unfold calculate_super_growth. now rewrite Hcap. }
    intros _ H. now contradiction H.
  - exists (Finite (Z.of_nat k)), (Finite (start_age + Z.of_nat k)),
      (grow_years annual_contribution annual_return_rate k current_balance).
    split; [reflexivity |].
    split; [split; [intros H; injection H as H _ _; lia | intros H; lra] |].
    split; [split; discriminate |].
    split.
    { split; [discriminate |]. intros [_ [H | H]]; [now contradiction Hnot |].
      exfalso. assert (Hk' : (k <= 100)%nat) by lia.
      apply H in Hk'. lra. }
    split; [discriminate |]. split; [discriminate |].
    intros _ _. exists (Z.of_nat k).
    split; [lia |]. split; [reflexivity |]. split; [reflexivity |].
    split; [| exact Hfin].
    unfold calculate_super_growth. now rewrite Nat2Z.id.
Qed.

Lemma C9_years_to_reach_target_witness :
  exists n : Z,
    (1 <= n <= 100)%Z
    /\ years_to_reach_target_super 38 240000 950000 30000 0.2
       = Some (Finite n, Finite (38 + n),
               calculate_super_growth 240000 30000 0.2 n)
    /\ 950000 <= calculate_super_growth 240000 30000 0.2 n.
Proof.
  destruct (C9_years_to_reach_target 38 240000 950000 30000 0.2)
    as (years & age & final & Hres & _ & _ & _ & _ & _ & Hfin).
  destruct Hfin as (n & Hn & -> & -> & -> & Hreached).
  - vm_compute. reflexivity.
  - intros ->. vm_compute in Hres. discriminate.
  - exists n. split; [exact Hn |]. split; [exact Hres | exact Hreached].
Defined.

(** * Further properties of the calculators *)

(** ** Growth *)

#[global] Instance grow_one_year_comp (c r : Q) : Proper (Qeq ==> Qeq) (grow_one_year c r).
Proof.
  intros b b' E. unfold grow_one_year. now rewrite E.
Qed.

#[global] Instance grow_years_comp (c r : Q) (n : nat) :
  Proper (Qeq ==> Qeq) (grow_years c r n).
Proof.
  induction n as [| n IH]; intros b b' E; simpl; [exact E |].
  apply IH. now rewrite E.
Qed.

Lemma grow_years_add (c r : Q) (m n : nat) (b : Q) :
  grow_years c r (m + n) b = grow_years c r n (grow_years c r m b).
Proof.
  revert b. induction m as [| m IH]; intros b; simpl; [reflexivity | apply IH].
Qed.

Lemma grow_years_succ (c r : Q) (n : nat) (b : Q) :
  grow_years c r (S n) b = grow_one_year c r (grow_years c r n b).
Proof.
  replace (S n) with (n + 1)%nat by lia. now rewrite grow_years_add.
Qed.

(** Growing is monotone in the balance when the rate is at least -100%. *)
Lemma grow_years_le_balance (c r : Q) (n : nat) :
  0 <= 1 + r -> forall b b', b <= b' -> grow_years c r n b <= grow_years c r n b'.
Proof.
  intros Hr. induction n as [| n IH]; intros b b' H; simpl; [exact H |].
  apply IH. unfold grow_one_year. nra.
Qed.

Lemma grow_years_nonneg (c r : Q) (n : nat) (b : Q) :
  0 <= c -> 0 <= r -> 0 <= b -> 0 <= grow_years c r n b.
Proof.
  intros Hc Hr. revert b. induction n as [| n IH]; intros b Hb; simpl; [exact Hb |].
  apply IH. unfold grow_one_year. nra.
Qed.

(** X1.  With no contribution and no return the balance is unchanged,
    whatever the number of years. *)
Theorem X1_growth_without_contribution_or_return (current_balance : Q) (years : Z) :
  calculate_super_growth current_balance 0 0 years == current_balance.
Proof.
  unfold calculate_super_growth.
  induction (Z.to_nat years) as [| n IH]; [reflexivity |].
  rewrite grow_years_succ, IH. unfold grow_one_year. ring.
Qed.

(** X2.  Projecting [m + n] years is projecting [m] years and then [n]
    more from the balance reached, for non-negative [m] and [n]. *)
Theorem X2_growth_composes
  (current_balance annual_contribution annual_return_rate : Q) (m n : Z) :
  (0 <= m)%Z -> (0 <= n)%Z ->
  calculate_super_growth current_balance annual_contribution annual_return_rate (m + n)
  = calculate_super_growth
      (calculate_super_growth current_balance annual_contribution annual_return_rate m)
      annual_contribution annual_return_rate n.
Proof.
  intros Hm Hn. unfold calculate_super_growth.
  rewrite Z2Nat.inj_add by assumption. apply grow_years_add.
Qed.

Lemma X2_growth_composes_witness :
  calculate_super_growth 1000 100 0.1 (1 + 2)
  = calculate_super_growth (calculate_super_growth 1000 100 0.1 1) 100 0.1 2.
Proof.
  apply (X2_growth_composes 1000 100 0.1 1 2); lia.
Defined.

(** X3.  With non-negative balance, contribution and return rate, the
    projected balance never decreases when the number of years grows, and
    it is never negative. *)
Theorem X3_growth_monotone_in_years
  (current_balance annual_contribution annual_return_rate : Q) (years years' : Z) :
  0 <= current_balance -> 0 <= annual_contribution -> 0 <= annual_return_rate ->
  (years <= years')%Z ->
  0 <= calculate_super_growth current_balance annual_contribution annual_return_rate years
  /\ calculate_super_growth current_balance annual_contribution annual_return_rate years
     <= calculate_super_growth current_balance annual_contribution annual_return_rate
          years'.
Proof.
  intros Hb Hc Hr Hy. unfold calculate_super_growth.
  split; [now apply grow_years_nonneg |].
  assert (Hn : (Z.to_nat years <= Z.to_nat years')%nat) by lia.
  revert Hn. generalize (Z.to_nat years) (Z.to_nat years'). intros n n' Hn.
  replace n' with (n + (n' - n))%nat by lia.
  rewrite grow_years_add.
  assert (H0 := grow_years_nonneg annual_contribution annual_return_rate n
                  current_balance Hc Hr Hb).
  revert H0. generalize (grow_years annual_contribution annual_return_rate n
                           current_balance).
  intros b H0. induction (n' - n)%nat as [| k IH]; [simpl; lra |].
  rewrite grow_years_succ.
  assert (Hk := grow_years_nonneg annual_contribution annual_return_rate k b Hc Hr H0).
  unfold grow_one_year. nra.
Qed.

Lemma X3_growth_monotone_in_years_witness :
  0 <= calculate_super_growth 240000 30000 0.07 5
  /\ calculate_super_growth 240000 30000 0.07 5
     <= calculate_super_growth 240000 30000 0.07 10.
Proof.
  apply (X3_growth_monotone_in_years 240000 30000 0.07 5 10);
    first [lia | vm_compute; discriminate].
Defined.

(** X4.  With non-negative balances, contributions and rates, raising the
    starting balance, the contribution or the return rate never lowers the
    projected balance. *)
Theorem X4_growth_monotone_in_inputs (b b' c c' r r' : Q) (years : Z) :
  0 <= b -> b <= b' -> 0 <= c -> c <= c' -> 0 <= r -> r <= r' ->
  calculate_super_growth b c r years <= calculate_super_growth b' c' r' years.
Proof.
  intros Hb Hbb Hc Hcc Hr Hrr. unfold calculate_super_growth.
  generalize (Z.to_nat years). intros n. revert b b' Hb Hbb.
  induction n as [| n IH]; intros b b' Hb Hbb; simpl; [exact Hbb |].
  apply IH; unfold grow_one_year; nra.
Qed.

Lemma X4_growth_monotone_in_inputs_witness :
  calculate_super_growth 1000 100 0.05 3 <= calculate_super_growth 2000 150 0.07 3.
Proof.
  apply (X4_growth_monotone_in_inputs 1000 2000 100 150 0.05 0.07 3);
    vm_compute; discriminate.
Defined.



(** ** Years to reach a target *)

(** X6.  When [years_to_reach_target_super] returns a finite number of
    years, that number is the first year in which the projected balance of
    [calculate_super_growth] is at least the target: the balance returned
    is the projection for that many years, it reaches the target, every
    earlier year is below it, and the age returned is the start age plus
    the years. *)
Theorem X6_years_to_target_is_first_year_reaching_it
  (start_age : Z) (current_balance target_balance : Q)
  (annual_contribution annual_return_rate : Q) (n : Z) (age : Years) (final : Q) :
  years_to_reach_target_super start_age current_balance target_balance
    annual_contribution annual_return_rate = Some (Finite n, age, final) ->
  age = Finite (start_age + n)
  /\ (0 <= n <= 100)%Z
  /\ final = calculate_super_growth current_balance annual_contribution
               annual_return_rate n
  /\ target_balance <= final
  /\ (forall k : Z, (0 <= k < n)%Z ->
        calculate_super_growth current_balance annual_contribution
          annual_return_rate k < target_balance).
Proof.
  unfold years_to_reach_target_super.
  destruct (Qle_bool_cases target_balance current_balance) as [[-> Hmet] | [-> Hbelow]].
  { intros H. injection H as <- <- <-.
    split; [f_equal; lia |]. split; [lia |]. split; [reflexivity |].
    split; [exact Hmet |]. intros k Hk. lia. }
  destruct (Qle_bool annual_contribution 0 && Qle_bool annual_return_rate 0);
    [discriminate |].
  destruct (loop_and_cap_check start_age current_balance target_balance
              annual_contribution annual_return_rate Hbelow)
    as (k & Hk & Hseen & [(_ & _ & ->) | (Hfin & ->)]); [discriminate |].
  intros H. injection H as <- <- <-.
  split; [reflexivity |]. split; [lia |].
  unfold calculate_super_growth. rewrite Nat2Z.id.
  split; [reflexivity |]. split; [exact Hfin |].
  intros j Hj. apply Hseen. lia.
Qed.

Lemma X6_years_to_target_is_first_year_reaching_it_witness :
  Finite 44 = Finite (38 + 6)
  /\ (0 <= 6 <= 100)%Z
  /\ calculate_super_growth 240000 30000 0.2 6
     = calculate_super_growth 240000 30000 0.2 6
  /\ 950000 <= calculate_super_growth 240000 30000 0.2 6
  /\ (forall k : Z, (0 <= k < 6)%Z ->
        calculate_super_growth 240000 30000 0.2 k < 950000).
Proof.
  apply (X6_years_to_target_is_first_year_reaching_it 38 240000 950000 30000 0.2 6
           (Finite 44) (calculate_super_growth 240000 30000 0.2 6)).
  reflexivity.
Defined.

(** X7.  If the projected balance reaches the target in some year [k] of
    the first 100, and the unreachable guard (target above the balance with
    contribution and rate both at most 0) does not apply, the function
    returns a finite number of years, at most [k]. *)
Theorem X7_reachable_target_is_found
  (start_age : Z) (current_balance target_balance : Q)
  (annual_contribution annual_return_rate : Q) (k : Z) :
  (0 <= k <= 100)%Z ->
  target_balance <= calculate_super_growth current_balance annual_contribution
                      annual_return_rate k ->
  ~ (current_balance < target_balance
     /\ annual_contribution <= 0 /\ annual_return_rate <= 0) ->
  exists n : Z,
    (0 <= n <= k)%Z
    /\ years_to_reach_target_super start_age current_balance target_balance
         annual_contribution annual_return_rate
       = Some (Finite n, Finite (start_age + n),
               calculate_super_growth current_balance annual_contribution
                 annual_return_rate n).
Proof.
  intros Hk Hreach Hguard. unfold years_to_reach_target_super.
  destruct (Qle_bool_cases target_balance current_balance) as [[-> Hmet] | [-> Hbelow]].
  { exists 0%Z. split; [lia |]. rewrite Z.add_0_r. reflexivity. }
  destruct (Qle_bool annual_contribution 0 && Qle_bool annual_return_rate 0) eqn:Eg.
  { exfalso. apply Hguard. apply andb_prop in Eg. destruct Eg as [Hc Hr].
    apply Qle_bool_iff in Hc. apply Qle_bool_iff in Hr. tauto. }
  unfold calculate_super_growth in Hreach.
  destruct (loop_and_cap_check start_age current_balance target_balance
              annual_contribution annual_return_rate Hbelow)
    as (j & Hj & Hseen & [(Hcap & Hfin & _) | (Hfin & ->)]).
  - exfalso. destruct (Nat.eq_dec (Z.to_nat k) j) as [E | E].
    + rewrite E in Hreach. lra.
    + assert (Hlt := Hseen (Z.to_nat k)). lapply Hlt; [lra | lia].
  - exists (Z.of_nat j).
    assert (Hle : (j <= Z.to_nat k)%nat).
    { destruct (le_lt_dec j (Z.to_nat k)) as [H | H]; [exact H |].
      apply Hseen in H. lra. }
    split; [lia |]. unfold calculate_super_growth. now rewrite Nat2Z.id.
Qed.

Lemma X7_reachable_target_is_found_witness :
  exists n : Z,
    (0 <= n <= 10)%Z
    /\ years_to_reach_target_super 38 240000 950000 30000 0.2
       = Some (Finite n, Finite (38 + n), calculate_super_growth 240000 30000 0.2 n).
Proof.
  apply (X7_reachable_target_is_found 38 240000 950000 30000 0.2 10).
  - lia.
  - vm_compute. discriminate.
  - intros (_ & H & _). vm_compute in H. apply H. reflexivity.
Defined.

(** X8.  The unreachable guard is sound for a non-negative balance: with
    a contribution at most 0 and a return rate between -100% and 0 the
    projected balance never exceeds the starting balance, so a target above
    it is reached in no number of years, and the function returns the
    sentinel with the balance unchanged. *)
Theorem X8_unreachable_guard_is_sound
  (start_age : Z) (current_balance target_balance : Q)
  (annual_contribution annual_return_rate : Q) :
  0 <= current_balance -> current_balance < target_balance ->
  annual_contribution <= 0 -> -1 <= annual_return_rate -> annual_return_rate <= 0 ->
  years_to_reach_target_super start_age current_balance target_balance
    annual_contribution annual_return_rate
  = Some (Infinity, Infinity, current_balance)
  /\ (forall years : Z,
        calculate_super_growth current_balance annual_contribution
          annual_return_rate years < target_balance).
Proof.
  intros Hb Hbelow Hc Hr1 Hr0. split.
  - unfold years_to_reach_target_super.
    destruct (Qle_bool_cases target_balance current_balance) as [[_ H] | [-> _]]; [lra |].
    apply Qle_bool_iff in Hc. apply Qle_bool_iff in Hr0. now rewrite Hc, Hr0.
  - intros years. unfold calculate_super_growth.
    apply Qle_lt_trans with current_balance; [| exact Hbelow].
    induction (Z.to_nat years) as [| n IH]; [simpl; lra |].
    rewrite grow_years_succ. revert IH.
    generalize (grow_years annual_contribution annual_return_rate n current_balance).
    intros g IH. unfold grow_one_year.
    destruct (Qlt_le_dec (g + annual_contribution) 0); nra.
Qed.

Lemma X8_unreachable_guard_is_sound_witness :
  years_to_reach_target_super 40 500 600 (-10) (-0.01)
  = Some (Infinity, Infinity, 500)
  /\ (forall years : Z, calculate_super_growth 500 (-10) (-0.01) years < 600).
Proof.
  apply (X8_unreachable_guard_is_sound 40 500 600 (-10) (-0.01));
    vm_compute; first [reflexivity | discriminate].
Defined.

(** ** Minimum drawdown *)

(** X9.  Over the ages 0 to 200 the minimum drawdown rate never decreases
    with age and stays between 4% and 14%; for any other age (negative, or
    above 200) the lookup returns 0. *)
Theorem X9_drawdown_rate_monotone_and_bounded :
  (forall age age' : Z, (0 <= age)%Z -> (age <= age')%Z -> (age' <= 200)%Z ->
      0.04 <= get_min_drawdown_rate age
      /\ get_min_drawdown_rate age <= get_min_drawdown_rate age'
      /\ get_min_drawdown_rate age' <= 0.14)
  /\ (forall age : Z, (age < 0 \/ 200 < age)%Z -> get_min_drawdown_rate age = 0.0).
Proof.
  split.
  - intros age age' H0 Hle H200. unfold get_min_drawdown_rate.
    rewrite !find_band_rate_MIN_DRAWDOWN_RATES.
    repeat match goal with
    | |- context [(?a <=? ?b)%Z] => destruct (Z.leb_spec a b)
    | |- context [(?a <? ?b)%Z] => destruct (Z.ltb_spec a b)
    end; try lia; repeat split; discriminate.
  - intros age H. unfold get_min_drawdown_rate.
    apply fallback_iff_outside_bands in H. now rewrite H.
Qed.

Lemma X9_drawdown_rate_monotone_and_bounded_witness :
  (0.04 <= get_min_drawdown_rate 60
   /\ get_min_drawdown_rate 60 <= get_min_drawdown_rate 92
   /\ get_min_drawdown_rate 92 <= 0.14)
  /\ get_min_drawdown_rate (-1) = 0.0.
Proof.
  destruct X9_drawdown_rate_monotone_and_bounded as [H1 H2].
  split; [apply (H1 60%Z 92%Z); lia | apply (H2 (-1)%Z); lia].
Defined.

(** ** Tax *)

(** The top marginal rate bounds the average rate. *)
Lemma gross_tax_at_most_45_percent (t : Q) : 0 <= t -> gross_tax t <= 0.45 * t.
Proof.
  intros H. unfold gross_tax. q_tests; lra.
Qed.



(** The offset lies between 0 and the gross tax. *)
Lemma sapto_offset_bounds (s : HouseholdStatus) (t : Q) (age : Z) :
  0 <= sapto_offset s t age /\ sapto_offset s t age <= gross_tax t.
Proof.
  assert (Hg := gross_tax_nonneg t). unfold sapto_offset.
  destruct (AGE_PENSION_ELIGIBILITY_AGE <=? age)%Z; [| lra].
  cbv zeta. destruct (Qle_bool _ _); [lra |].
  revert Hg. generalize (gross_tax t). intros g Hg. q_minmax. lra.
Qed.

(** X11.  The senior offset never exceeds the gross tax and is never
    negative, so the tax after the offset is the gross tax minus the
    offset: the outer floor at 0 never binds, and the offset never raises
    the tax. *)
Theorem X11_sapto_offset_within_gross_tax
  (s : HouseholdStatus) (taxable_income : Q) (age : Z) :
  0 <= sapto_offset s taxable_income age
  /\ sapto_offset s taxable_income age <= gross_tax taxable_income
  /\ tax_after_sapto s taxable_income age
     == gross_tax taxable_income - sapto_offset s taxable_income age
  /\ tax_after_sapto s taxable_income age <= gross_tax taxable_income.
Proof.
  destruct (sapto_offset_bounds s taxable_income age) as [H0 H1].
  unfold tax_after_sapto. revert H0 H1.
  generalize (sapto_offset s taxable_income age) (gross_tax taxable_income).
  intros o g H0 H1. q_minmax. lra.
Qed.

(** X12.  [calculate_tax] is never negative, and for a non-negative
    taxable income it is at most 47% of it (45% top bracket plus the 2%
    levy): the tax never exceeds the income. *)
Theorem X12_tax_between_zero_and_income
  (s : HouseholdStatus) (taxable_income : Q) (age : Z) (is_couple_tax : bool) :
  0 <= calculate_tax s taxable_income age is_couple_tax
  /\ (0 <= taxable_income ->
      calculate_tax s taxable_income age is_couple_tax <= 0.47 * taxable_income
      /\ calculate_tax s taxable_income age is_couple_tax <= taxable_income).
Proof.
  destruct (sapto_offset_bounds s taxable_income age) as [H0 H1].
  assert (Hlevy : 0 <= medicare_levy s taxable_income is_couple_tax
                  /\ (0 <= taxable_income ->
                      medicare_levy s taxable_income is_couple_tax
                      <= 0.02 * taxable_income)).
  { unfold medicare_levy. destruct is_couple_tax, s; simpl;
      match goal with
      | |- context [Qlt_bool ?thr _] =>
          assert (Hthr : 0 < thr) by reflexivity;
          revert Hthr; generalize thr; intros thr' Hthr
      end;
      q_tests; (split; [| intros Ht]); lra. }
  assert (Hgross : 0 <= taxable_income ->
                   gross_tax taxable_income <= 0.45 * taxable_income).
  { exact (gross_tax_at_most_45_percent taxable_income). }
  unfold calculate_tax, tax_after_sapto. revert H0 H1 Hlevy Hgross.
  generalize (sapto_offset s taxable_income age) (gross_tax taxable_income)
             (medicare_levy s taxable_income is_couple_tax).
  intros o g l H0 H1 [Hl0 Hl1] Hgross. q_minmax.
  split; [lra |]. intros Ht. specialize (Hl1 Ht). specialize (Hgross Ht). lra.
Qed.

Lemma X12_tax_between_zero_and_income_witness :
  calculate_tax single 50000 70 false <= 0.47 * 50000
  /\ calculate_tax single 50000 70 false <= 50000.
Proof.
  apply (proj2 (X12_tax_between_zero_and_income single 50000 70 false)).
  vm_compute. discriminate.
Defined.

(** ** Age Pension *)

Lemma deemed_income_nonneg (s : HouseholdStatus) (cs : Q) : 0 <= deemed_income s cs.
Proof.
  unfold deemed_income. destruct s; simpl; q_tests; q_minmax; lra.
Qed.

Lemma deemed_income_le (s : HouseholdStatus) (cs cs' : Q) :
  cs <= cs' -> deemed_income s cs <= deemed_income s cs'.
Proof.
  intros H. unfold deemed_income. destruct s; simpl; q_tests; q_minmax; lra.
Qed.

Lemma ap_by_income_bounds (s : HouseholdStatus) (d : Q) :
  0 <= ap_by_income s d /\ ap_by_income s d <= MAX_ANNUAL_AGE_PENSION (CONSTANTS s).
Proof.
  unfold ap_by_income. destruct s; simpl; q_tests; q_minmax; lra.
Qed.

Lemma ap_by_income_antitone (s : HouseholdStatus) (d d' : Q) :
  d <= d' -> ap_by_income s d' <= ap_by_income s d.
Proof.
  intros H. unfold ap_by_income. destruct s; simpl; q_tests; q_minmax; lra.
Qed.

Lemma ap_by_asset_bounds (s : HouseholdStatus) (cs : Q) :
  0 <= ap_by_asset s cs /\ ap_by_asset s cs <= MAX_ANNUAL_AGE_PENSION (CONSTANTS s).
Proof.
  unfold ap_by_asset. destruct s; simpl; q_tests; q_minmax; lra.
Qed.

Lemma ap_by_asset_antitone (s : HouseholdStatus) (cs cs' : Q) :
  cs <= cs' -> ap_by_asset s cs' <= ap_by_asset s cs.
Proof.
  intros H. unfold ap_by_asset. destruct s; simpl; q_tests; q_minmax; lra.
Qed.

Lemma annual_age_pension_le_max (s : HouseholdStatus) (age : Z) (cs : Q) :
  annual_age_pension s age cs <= MAX_ANNUAL_AGE_PENSION (CONSTANTS s).
Proof.
  unfold annual_age_pension.
  destruct (AGE_PENSION_ELIGIBILITY_AGE <=? age)%Z; [| destruct s; simpl; lra].
  destruct (ap_by_income_bounds s (deemed_income s cs)) as [A B].
  destruct (ap_by_asset_bounds s cs) as [C D].
  revert A B C D.
  generalize (ap_by_income s (deemed_income s cs)) (ap_by_asset s cs)
             (MAX_ANNUAL_AGE_PENSION (CONSTANTS s)).
  intros a b m A B C D. q_minmax. lra.
Qed.

(** X13.  The Age Pension of a year lies between 0 and the maximum annual
    pension of the status: it is 0 before age 67, and from 67 on it is the
    full maximum for a balance of at most 0. *)
Theorem X13_age_pension_range (s : HouseholdStatus) (age : Z) (current_super : Q) :
  0 <= annual_age_pension s age current_super
  /\ annual_age_pension s age current_super <= MAX_ANNUAL_AGE_PENSION (CONSTANTS s)
  /\ ((age < 67)%Z -> annual_age_pension s age current_super == 0)
  /\ ((67 <= age)%Z -> current_super <= 0 ->
      annual_age_pension s age current_super == MAX_ANNUAL_AGE_PENSION (CONSTANTS s)).
Proof.
  split; [apply annual_age_pension_nonneg |].
  split; [apply annual_age_pension_le_max |].
  split.
  - intros H. now rewrite annual_age_pension_ineligible.
  - intros H Hcs. rewrite annual_age_pension_eligible by exact H.
    assert (Ed : deemed_income s current_super = 0).
    { unfold deemed_income.
      destruct (Qlt_bool_cases 0 current_super) as [[_ H'] | [-> _]];
        [lra | reflexivity]. }
    rewrite Ed. unfold ap_by_income, ap_by_asset.
    destruct s; simpl; q_tests; try lra; q_minmax; lra.
Qed.

Lemma X13_age_pension_range_witness :
  annual_age_pension single 60 100000 == 0
  /\ annual_age_pension couple 70 0 == MAX_ANNUAL_AGE_PENSION (CONSTANTS couple).
Proof.
  destruct (X13_age_pension_range single 60 100000) as (_ & _ & H1 & _).
  destruct (X13_age_pension_range couple 70 0) as (_ & _ & _ & H2).
  split; [apply H1; lia | apply H2; [lia | vm_compute; discriminate]].
Defined.

(** X14.  At a given age, a larger balance never gives a larger Age
    Pension: both means tests only take away as the balance grows. *)
Theorem X14_age_pension_antitone_in_balance
  (s : HouseholdStatus) (age : Z) (current_super current_super' : Q) :
  current_super <= current_super' ->
  annual_age_pension s age current_super' <= annual_age_pension s age current_super.
Proof.
  intros H. unfold annual_age_pension.
  destruct (AGE_PENSION_ELIGIBILITY_AGE <=? age)%Z; [| lra].
  apply Q.max_le_compat_l. apply Q.min_le_compat.
  - apply ap_by_income_antitone. now apply deemed_income_le.
  - now apply ap_by_asset_antitone.
Qed.

Lemma X14_age_pension_antitone_in_balance_witness :
  annual_age_pension single 70 500000 <= annual_age_pension single 70 400000.
Proof.
  apply (X14_age_pension_antitone_in_balance single 70 400000 500000).
  vm_compute. discriminate.
Defined.

(** * Further properties of the projection *)

(** ** One year *)

Lemma get_min_drawdown_rate_bounds (age : Z) :
  0 <= get_min_drawdown_rate age /\ get_min_drawdown_rate age <= 0.14.
Proof.
  unfold get_min_drawdown_rate. rewrite find_band_rate_MIN_DRAWDOWN_RATES.
  repeat match goal with
  | |- context [(?a <=? ?b)%Z] => destruct (Z.leb_spec a b)
  | |- context [(?a <? ?b)%Z] => destruct (Z.ltb_spec a b)
  end; split; discriminate.
Qed.

(** The Age Pension is below every tax threshold of its status: the
    per-person slice is fully offset and pays no levy. *)
Lemma pension_untaxed (s : HouseholdStatus) (age : Z) (cs : Q) :
  calculate_tax s
    (annual_age_pension s age cs / (if status_eqb s couple then 2 else 1))
    age (status_eqb s couple)
  == 0.
Proof.
  destruct (Z_lt_le_dec age 67) as [Hage | Hage].
  - rewrite annual_age_pension_ineligible by exact Hage.
    now apply no_pension_no_tax.
  - assert (H0 := annual_age_pension_nonneg s age cs).
    assert (H1 := annual_age_pension_le_max s age cs).
    revert H0 H1. generalize (annual_age_pension s age cs). intros p H0 H1.
    apply eligibility_test in Hage.
    unfold calculate_tax, tax_after_sapto, sapto_offset, medicare_levy.
    rewrite Hage. cbv zeta.
    destruct s; simpl in H1 |- *.
    + assert (E : p / 1 == p * 1) by field. revert E.
      generalize (p / 1). intros t E.
      unfold gross_tax. q_tests; q_minmax; lra.
    + assert (E : p / 2 == p * (1 # 2)) by field. revert E.
      generalize (p / 2). intros t E.
      assert (E2 : 59886 / 2 == 29943) by reflexivity. revert E2.
      generalize (59886 / 2). intros thr E2.
      unfold gross_tax. q_tests; q_minmax; lra.
Qed.

Section YearFacts.

Variables (super_return_rate target_after_tax_income : Q).
Variable relationship_status : HouseholdStatus.
Variables (age : Z) (current_super : Q).

Let y := year_values super_return_rate target_after_tax_income relationship_status
           age current_super.

Lemma year_values_tax_free : yr_total_tax_payment y == 0.
Proof.
  unfold y, year_values. cbn [yr_total_tax_payment].
  rewrite pension_untaxed. ring.
Qed.

Lemma year_values_income :
  yr_total_income_after_tax y
  == yr_annual_super_withdrawal y + yr_annual_age_pension y - yr_total_tax_payment y.
Proof.
  unfold y, year_values.
  cbn [yr_total_income_after_tax yr_annual_super_withdrawal yr_annual_age_pension
       yr_total_tax_payment].
  ring.
Qed.

Hypothesis balance_nonneg : 0 <= current_super.

(** The withdrawal in closed form. *)
Lemma year_values_withdrawal_closed :
  yr_annual_super_withdrawal y
  == Qmin (yr_current_super y)
          (Qmax (yr_min_drawdown_amt y)
                (target_after_tax_income
                 - (yr_annual_age_pension y - yr_total_tax_payment y))).
Proof.
  destruct (get_min_drawdown_rate_bounds age) as [Hr0 _].
  unfold y, year_values.
  cbn [yr_annual_super_withdrawal yr_current_super yr_min_drawdown_amt
       yr_annual_age_pension yr_total_tax_payment].
  revert Hr0. generalize (get_min_drawdown_rate age). intros rate Hr0.
  assert (Hmd : 0 <= current_super * rate) by nra.
  revert Hmd. generalize (current_super * rate). intros md Hmd.
  match goal with
  | |- context [Qle_bool target_after_tax_income ?a] => generalize a
  end.
  intros after. q_tests; q_minmax; lra.
Qed.

(** Either the target is met or the whole balance is withdrawn. *)
Lemma year_values_target_or_exhausted :
  yr_total_income_after_tax y < target_after_tax_income ->
  yr_annual_super_withdrawal y == current_super /\ yr_end_super y == 0.
Proof.
  intros H.
  assert (Hw : yr_annual_super_withdrawal y == current_super).
  { rewrite year_values_income in H. rewrite year_values_withdrawal_closed in H |- *.
    replace (yr_current_super y) with current_super in * by reflexivity.
    revert H. generalize (yr_min_drawdown_amt y) (yr_annual_age_pension y)
                         (yr_total_tax_payment y).
    intros md ap tax. q_minmax. lra. }
  split; [exact Hw |].
  unfold y. rewrite year_values_end_super. fold y. rewrite Hw.
  replace (yr_current_super y) with current_super by reflexivity. ring.
Qed.

End YearFacts.

(** ** The years of a projection *)

Section ProjectionMore.

Variables (start_super : Q) (start_age end_age : Z) (super_return_rate : Q).
Variables (target_after_tax_income : Q) (relationship_status : HouseholdStatus).

Let years :=
  projected_years start_super start_age end_age super_return_rate
    target_after_tax_income relationship_status.

(** Every projected year is the loop body at some age and balance. *)
Lemma years_in_year_values (y : YearValues) :
  In y years ->
  y = year_values super_return_rate target_after_tax_income relationship_status
        (yr_age y) (yr_current_super y).
Proof.
  intros H. apply In_nth_error in H. destruct H as [i H].
  apply run_years_nth in H. destruct H as (age & cs & _ & ->). reflexivity.
Qed.

Hypothesis start_nonneg : 0 <= start_super.
Hypothesis rate_nonneg : 0 <= super_return_rate.

(** A year starts from the end balance of the year before it. *)
Lemma years_chain (i : nat) (y y' : YearValues) :
  nth_error years i = Some y -> nth_error years (S i) = Some y' ->
  yr_current_super y' == yr_end_super y.
Proof.
  intros Hy Hy'.
  destruct (years_balance _ _ _ _ _ _ start_nonneg rate_nonneg y (nth_error_In _ _ Hy))
    as (_ & _ & _ & Hend).
  unfold years, projected_years in Hy, Hy'.
  rewrite (run_years_next _ _ _ _ _ _ _ _ Hy) in Hy'.
  destruct (depleted_early end_age y && income_ceased target_after_tax_income y);
    [discriminate |].
  destruct (nth_error _ (S i)) as [age' |]; [| discriminate].
  simpl in Hy'. injection Hy' as <-. cbn [yr_current_super year_values].
  destruct (depleted_early end_age y) eqn:Ed; [| reflexivity].
  unfold depleted_early in Ed. apply andb_prop in Ed. destruct Ed as [Ed _].
  apply Qle_bool_iff in Ed. lra.
Qed.

(** A year that starts from nothing withdraws nothing and ends on nothing. *)
Lemma year_on_empty_balance (y : YearValues) :
  In y years -> yr_current_super y == 0 ->
  yr_annual_super_withdrawal y == 0 /\ yr_end_super y == 0.
Proof.
  intros Hin Hcs.
  destruct (years_balance _ _ _ _ _ _ start_nonneg rate_nonneg y Hin)
    as (_ & Hw0 & Hw1 & _).
  assert (Hw : yr_annual_super_withdrawal y == 0) by lra.
  split; [exact Hw |].
  rewrite (years_in_year_values y Hin), year_values_end_super.
  rewrite <- (years_in_year_values y Hin), Hw, Hcs. ring.
Qed.

(** Once a year ends on nothing, every later year starts and ends on
    nothing. *)
Lemma years_stay_exhausted (d i : nat) (y y' : YearValues) :
  nth_error years i = Some y -> yr_end_super y <= 0 ->
  nth_error years (i + S d) = Some y' ->
  yr_current_super y' == 0
  /\ yr_annual_super_withdrawal y' == 0
  /\ yr_end_super y' == 0.
Proof.
  revert y'. induction d as [| d IH]; intros y' Hy Hend Hy'.
  - replace (i + 1)%nat with (S i) in Hy' by lia.
    assert (Hc := years_chain i y y' Hy Hy').
    destruct (years_balance _ _ _ _ _ _ start_nonneg rate_nonneg y (nth_error_In _ _ Hy))
      as (_ & _ & _ & Hend0).
    assert (Hcs : yr_current_super y' == 0) by lra.
    split; [exact Hcs |].
    apply year_on_empty_balance; [exact (nth_error_In _ _ Hy') | exact Hcs].
  - replace (i + S (S d))%nat with (S (i + S d)) in Hy' by lia.
    destruct (nth_error years (i + S d)) as [ym |] eqn:Hm.
    + destruct (IH ym Hy Hend eq_refl) as (_ & _ & Hme).
      assert (Hc := years_chain (i + S d) ym y' Hm Hy').
      assert (Hcs : yr_current_super y' == 0) by lra.
      split; [exact Hcs |].
      apply year_on_empty_balance; [exact (nth_error_In _ _ Hy') | exact Hcs].
    + exfalso. apply nth_error_None in Hm.
      assert (Hn : nth_error years (S (i + S d)) = None)
        by (apply nth_error_None; lia).
      congruence.
Qed.

End ProjectionMore.

(** X15.  No projected year pays tax: the Age Pension, the only taxable
    income of the model, is below the offset and levy thresholds of its
    status.  In every returned row the tax payment is 0 and the income
    after tax equals the income before tax. *)
Theorem X15_projection_pays_no_tax
  (start_super : Q) (start_age end_age : Z) (super_return_rate : Q)
  (target_after_tax_income : Q) (relationship_status : HouseholdStatus) :
  (forall y,
      In y (projected_years start_super start_age end_age super_return_rate
              target_after_tax_income relationship_status) ->
      yr_total_tax_payment y == 0
      /\ yr_total_income_after_tax y
         == yr_annual_super_withdrawal y + yr_annual_age_pension y)
  /\ (forall row,
        In row (project_retirement_income start_super start_age end_age
                  super_return_rate target_after_tax_income relationship_status) ->
        Tax_Payment row == 0
        /\ Total_Income_After_Tax row == Total_Annual_Income_Pre_Tax row).
Proof.
  assert (Hy : forall y,
             In y (projected_years start_super start_age end_age super_return_rate
                     target_after_tax_income relationship_status) ->
             yr_total_tax_payment y == 0
             /\ yr_total_income_after_tax y
                == yr_annual_super_withdrawal y + yr_annual_age_pension y
             /\ yr_total_income_after_tax y == yr_total_annual_income_before_tax y).
  { intros y Hin. rewrite (years_in_year_values _ _ _ _ _ _ y Hin).
    assert (Ht := year_values_tax_free super_return_rate target_after_tax_income
                    relationship_status (yr_age y) (yr_current_super y)).
    assert (Hi := year_values_income super_return_rate target_after_tax_income
                    relationship_status (yr_age y) (yr_current_super y)).
    split; [exact Ht |]. split; [rewrite Hi, Ht; ring |].
    rewrite Hi, Ht. cbn [year_values yr_total_annual_income_before_tax
                         yr_annual_super_withdrawal yr_annual_age_pension]. ring. }
  split.
  - intros y Hin. destruct (Hy y Hin) as (A & B & _). split; assumption.
  - intros row Hin. unfold project_retirement_income in Hin.
    apply in_map_iff in Hin. destruct Hin as (y & <- & Hin).
    destruct (Hy y Hin) as (A & _ & C). simpl.
    split; [rewrite A; apply round2_zero | now rewrite C].
Qed.

Lemma X15_projection_pays_no_tax_witness :
  yr_total_tax_payment (year_values 0.04 60000 single 65 950000) == 0
  /\ yr_total_income_after_tax (year_values 0.04 60000 single 65 950000)
     == yr_annual_super_withdrawal (year_values 0.04 60000 single 65 950000)
        + yr_annual_age_pension (year_values 0.04 60000 single 65 950000).
Proof.
  apply (proj1 (X15_projection_pays_no_tax 950000 65 70 0.04 60000 single)).
  left. reflexivity.
Defined.

(** X16.  With a non-negative starting balance and return rate, the
    withdrawal of every projected year is
    [min(balance, max(minimum drawdown, target - Age Pension))]: the
    override for a pension that covers the target and the floor at 0 never
    change it.  So every year withdraws at least the minimum drawdown
    unless it withdraws the whole balance. *)
Theorem X16_withdrawal_closed_form
  (start_super : Q) (start_age end_age : Z) (super_return_rate : Q)
  (target_after_tax_income : Q) (relationship_status : HouseholdStatus)
  (y : YearValues) :
  0 <= start_super -> 0 <= super_return_rate ->
  In y (projected_years start_super start_age end_age super_return_rate
          target_after_tax_income relationship_status) ->
  yr_min_drawdown_amt y == yr_current_super y * get_min_drawdown_rate (yr_age y)
  /\ yr_annual_super_withdrawal y
     == Qmin (yr_current_super y)
             (Qmax (yr_min_drawdown_amt y)
                   (target_after_tax_income - yr_annual_age_pension y))
  /\ (yr_min_drawdown_amt y <= yr_annual_super_withdrawal y
      \/ yr_annual_super_withdrawal y == yr_current_super y).
Proof.
  intros H0 Hr Hin.
  destruct (years_balance _ _ _ _ _ _ H0 Hr y Hin) as (Hcs & _ & _ & _).
  assert (E := years_in_year_values _ _ _ _ _ _ y Hin).
  assert (Hw := year_values_withdrawal_closed super_return_rate target_after_tax_income
                  relationship_status (yr_age y) (yr_current_super y) Hcs).
  assert (Ht := year_values_tax_free super_return_rate target_after_tax_income
                  relationship_status (yr_age y) (yr_current_super y)).
  rewrite <- E in Hw, Ht.
  assert (Hclosed : yr_annual_super_withdrawal y
                    == Qmin (yr_current_super y)
                            (Qmax (yr_min_drawdown_amt y)
                                  (target_after_tax_income - yr_annual_age_pension y))).
  { rewrite Hw. apply Q.min_compat; [reflexivity |].
    apply Q.max_compat; [reflexivity |]. rewrite Ht. ring. }
  split; [rewrite E; reflexivity |]. split; [exact Hclosed |].
  revert Hclosed.
  generalize (yr_annual_super_withdrawal y) (yr_current_super y)
             (yr_min_drawdown_amt y)
             (target_after_tax_income - yr_annual_age_pension y).
  intros w cs md req. q_minmax. intros Hc.
  destruct (Qlt_le_dec w md); [right | left]; lra.
Qed.

Lemma X16_withdrawal_closed_form_witness :
  yr_min_drawdown_amt (year_values 0.04 60000 single 65 950000)
  == yr_current_super (year_values 0.04 60000 single 65 950000)
     * get_min_drawdown_rate (yr_age (year_values 0.04 60000 single 65 950000))
  /\ yr_annual_super_withdrawal (year_values 0.04 60000 single 65 950000)
     == Qmin (yr_current_super (year_values 0.04 60000 single 65 950000))
             (Qmax (yr_min_drawdown_amt (year_values 0.04 60000 single 65 950000))
                   (60000 - yr_annual_age_pension
                              (year_values 0.04 60000 single 65 950000)))
  /\ (yr_min_drawdown_amt (year_values 0.04 60000 single 65 950000)
      <= yr_annual_super_withdrawal (year_values 0.04 60000 single 65 950000)
      \/ yr_annual_super_withdrawal (year_values 0.04 60000 single 65 950000)
         == yr_current_super (year_values 0.04 60000 single 65 950000)).
Proof.
  apply (X16_withdrawal_closed_form 950000 65 70 0.04 60000 single
           (year_values 0.04 60000 single 65 950000)).
  - vm_compute. discriminate.
  - vm_compute. discriminate.
  - left. reflexivity.
Defined.

(** X17.  With a non-negative starting balance and return rate, every
    projected year either meets the target after tax or withdraws the
    whole balance and ends on 0; the returned row then shows an after-tax
    income of at least the rounded target, or an end balance of 0. *)
Theorem X17_target_met_or_balance_exhausted
  (start_super : Q) (start_age end_age : Z) (super_return_rate : Q)
  (target_after_tax_income : Q) (relationship_status : HouseholdStatus)
  (y : YearValues) :
  0 <= start_super -> 0 <= super_return_rate ->
  In y (projected_years start_super start_age end_age super_return_rate
          target_after_tax_income relationship_status) ->
  (target_after_tax_income <= yr_total_income_after_tax y
   /\ round2 target_after_tax_income <= Total_Income_After_Tax (year_result y))
  \/ (yr_annual_super_withdrawal y == yr_current_super y
      /\ yr_end_super y == 0
      /\ End_Super (year_result y) == 0).
Proof.
  intros H0 Hr Hin.
  destruct (years_balance _ _ _ _ _ _ H0 Hr y Hin) as (Hcs & _ & _ & _).
  destruct (Qlt_le_dec (yr_total_income_after_tax y) target_after_tax_income)
    as [Hlt | Hle].
  - right. rewrite (years_in_year_values _ _ _ _ _ _ y Hin) in Hlt.
    apply year_values_target_or_exhausted in Hlt; [| exact Hcs].
    rewrite <- (years_in_year_values _ _ _ _ _ _ y Hin) in Hlt.
    destruct Hlt as [Hw He]. split; [exact Hw |]. split; [exact He |].
    simpl. rewrite He. apply round2_zero.
  - left. split; [exact Hle |]. simpl. now apply round2_le.
Qed.

Lemma X17_target_met_or_balance_exhausted_witness :
  (60000 <= yr_total_income_after_tax (year_values 0.04 60000 single 65 950000)
   /\ round2 60000
      <= Total_Income_After_Tax (year_result (year_values 0.04 60000 single 65 950000)))
  \/ (yr_annual_super_withdrawal (year_values 0.04 60000 single 65 950000)
      == yr_current_super (year_values 0.04 60000 single 65 950000)
      /\ yr_end_super (year_values 0.04 60000 single 65 950000) == 0
      /\ End_Super (year_result (year_values 0.04 60000 single 65 950000)) == 0).
Proof.
  apply (X17_target_met_or_balance_exhausted 950000 65 70 0.04 60000 single
           (year_values 0.04 60000 single 65 950000)).
  - vm_compute. discriminate.
  - vm_compute. discriminate.
  - left. reflexivity.
Defined.

(** X18.  With a non-negative starting balance and return rate, once a
    projected year ends on a balance of at most 0, every later year starts
    from 0, withdraws 0 and ends on 0: an exhausted balance never
    recovers. *)
Theorem X18_exhausted_balance_stays_exhausted
  (start_super : Q) (start_age end_age : Z) (super_return_rate : Q)
  (target_after_tax_income : Q) (relationship_status : HouseholdStatus)
  (i j : nat) (y y' : YearValues) :
  0 <= start_super -> 0 <= super_return_rate ->
  nth_error (projected_years start_super start_age end_age super_return_rate
               target_after_tax_income relationship_status) i = Some y ->
  yr_end_super y <= 0 ->
  (i < j)%nat ->
  nth_error (projected_years start_super start_age end_age super_return_rate
               target_after_tax_income relationship_status) j = Some y' ->
  yr_current_super y' == 0
  /\ yr_annual_super_withdrawal y' == 0
  /\ yr_end_super y' == 0
  /\ End_Super (year_result y') == 0.
Proof.
  intros H0 Hr Hy Hend Hij Hy'.
  replace j with (i + S (j - i - 1))%nat in Hy' by lia.
  destruct (years_stay_exhausted _ _ _ _ _ _ H0 Hr _ _ _ _ Hy Hend Hy')
    as (A & B & C).
  split; [exact A |]. split; [exact B |]. split; [exact C |].
  simpl. rewrite C. apply round2_zero.
Qed.

Lemma X18_exhausted_balance_stays_exhausted_witness :
  yr_current_super (year_values 0.04 60000 single 69 0) == 0
  /\ yr_annual_super_withdrawal (year_values 0.04 60000 single 69 0) == 0
  /\ yr_end_super (year_values 0.04 60000 single 69 0) == 0
  /\ End_Super (year_result (year_values 0.04 60000 single 69 0)) == 0.
Proof.
  apply (X18_exhausted_balance_stays_exhausted 10000 68 72 0.04 60000 single 0 1
           (year_values 0.04 60000 single 68 10000)
           (year_values 0.04 60000 single 69 0)).
  - vm_compute. discriminate.
  - vm_compute. discriminate.
  - reflexivity.
  - vm_compute. discriminate.
  - lia.
  - reflexivity.
Defined.

(** X19.  With a non-negative starting balance and return rate, the
    balance a projected year starts from never exceeds what the starting
    balance alone would have grown to in that many years
    ([calculate_super_growth] without contributions): withdrawals only take
    money out. *)
Theorem X19_balance_at_most_pure_growth
  (start_super : Q) (start_age end_age : Z) (super_return_rate : Q)
  (target_after_tax_income : Q) (relationship_status : HouseholdStatus)
  (i : nat) (y : YearValues) :
  0 <= start_super -> 0 <= super_return_rate ->
  nth_error (projected_years start_super start_age end_age super_return_rate
               target_after_tax_income relationship_status) i = Some y ->
  yr_current_super y
  <= calculate_super_growth start_super 0 super_return_rate (Z.of_nat i)
  /\ yr_end_super y
     <= calculate_super_growth start_super 0 super_return_rate (Z.of_nat i + 1).
Proof.
  intros H0 Hr. unfold calculate_super_growth.
  replace (Z.to_nat (Z.of_nat i + 1)) with (S i) by lia. rewrite Nat2Z.id.
  assert (Hstep : forall k y0,
             nth_error (projected_years start_super start_age end_age super_return_rate
                          target_after_tax_income relationship_status) k = Some y0 ->
             yr_current_super y0 <= grow_years 0 super_return_rate k start_super ->
             yr_end_super y0 <= grow_years 0 super_return_rate (S k) start_super).
  { intros k y0 Hy0 Hle.
    destruct (years_balance _ _ _ _ _ _ H0 Hr y0 (nth_error_In _ _ Hy0))
      as (_ & Hw0 & _ & _).
    rewrite (years_in_year_values _ _ _ _ _ _ y0 (nth_error_In _ _ Hy0)),
      year_values_end_super.
    rewrite <- (years_in_year_values _ _ _ _ _ _ y0 (nth_error_In _ _ Hy0)).
    rewrite grow_years_succ. unfold grow_one_year. nra. }
  revert y. induction i as [| i IH]; intros y Hy.
  - assert (Hcs : yr_current_super y = start_super).
    { unfold projected_years in Hy. rewrite run_years_head in Hy.
      destruct (nth_error _ 0); [| discriminate]. simpl in Hy.
      injection Hy as <-. reflexivity. }
    assert (Hle : yr_current_super y <= grow_years 0 super_return_rate 0 start_super)
      by (rewrite Hcs; simpl; lra).
    split; [exact Hle | exact (Hstep 0%nat y Hy Hle)].
  - destruct (nth_error (projected_years start_super start_age end_age
                           super_return_rate target_after_tax_income
                           relationship_status) i) as [yp |] eqn:Hp.
    + destruct (IH yp eq_refl) as [_ Hpe].
      assert (Hc := years_chain _ _ _ _ _ _ H0 Hr i yp y Hp Hy).
      assert (Hle : yr_current_super y
                    <= grow_years 0 super_return_rate (S i) start_super) by lra.
      split; [exact Hle | exact (Hstep (S i) y Hy Hle)].
    + exfalso. apply nth_error_None in Hp.
      assert (Hn : nth_error (projected_years start_super start_age end_age
                                super_return_rate target_after_tax_income
                                relationship_status) (S i) = None)
        by (apply nth_error_None; lia).
      congruence.
Qed.

Lemma X19_balance_at_most_pure_growth_witness :
  yr_current_super (year_values 0.04 60000 single 65 950000)
  <= calculate_super_growth 950000 0 0.04 (Z.of_nat 0)
  /\ yr_end_super (year_values 0.04 60000 single 65 950000)
     <= calculate_super_growth 950000 0 0.04 (Z.of_nat 0 + 1).
Proof.
  apply (X19_balance_at_most_pure_growth 950000 65 70 0.04 60000 single 0
           (year_values 0.04 60000 single 65 950000)).
  - vm_compute. discriminate.
  - vm_compute. discriminate.
  - reflexivity.
Defined.

(** The last year of a run that left through [break] is the one that
    passed both tests. *)
Lemma run_years_break (end_age : Z) (r target : Q) (s : HouseholdStatus)
  (ages : list Z) :
  forall cs : Q,
    snd (run_years end_age r target s ages cs) = true ->
    exists y,
      nth_error (fst (run_years end_age r target s ages cs))
        (length (fst (run_years end_age r target s ages cs)) - 1) = Some y
      /\ depleted_early end_age y = true
      /\ income_ceased target y = true.
Proof.
  induction ages as [| age rest IH]; intros cs H; [discriminate |].
  rewrite run_years_cons in H |- *.
  destruct (depleted_early end_age (year_values r target s age cs)
            && income_ceased target (year_values r target s age cs)) eqn:E.
  - exists (year_values r target s age cs). apply andb_prop in E.
    split; [reflexivity | exact E].
  - simpl in H |- *. destruct (IH _ H) as (y & Hy & Hd & Hc).
    exists y. split; [| split; assumption].
    destruct (fst (run_years end_age r target s rest _)) as [| y0 l] eqn:El;
      [discriminate |].
    simpl in Hy |- *. now rewrite Nat.sub_0_r in *.
Qed.

(** X20.  When the projection leaves its loop early, the last row is for
    an age below [end_age], its year ended on a balance of at most 0, had
    no Age Pension and an after-tax income below the target, and fewer
    rows than ages are returned. *)
Theorem X20_early_termination_last_year
  (start_super : Q) (start_age end_age : Z) (super_return_rate : Q)
  (target_after_tax_income : Q) (relationship_status : HouseholdStatus) :
  terminated_early start_super start_age end_age super_return_rate
    target_after_tax_income relationship_status = true ->
  exists y,
    nth_error (project_retirement_income start_super start_age end_age
                 super_return_rate target_after_tax_income relationship_status)
      (length (project_retirement_income start_super start_age end_age
                 super_return_rate target_after_tax_income relationship_status) - 1)
    = Some (year_result y)
    /\ (yr_age y < end_age)%Z
    /\ yr_end_super y <= 0
    /\ yr_annual_age_pension y == 0
    /\ yr_total_income_after_tax y < target_after_tax_income
    /\ (Z.of_nat (length (project_retirement_income start_super start_age end_age
                            super_return_rate target_after_tax_income
                            relationship_status))
        < end_age - start_age + 1)%Z.
Proof.
  intros H. unfold terminated_early in H.
  destruct (run_years_break _ _ _ _ _ _ H) as (y & Hy & Hd & Hc).
  exists y. rewrite rows_nth_error, rows_length. unfold projected_years.
  rewrite Hy. split; [reflexivity |].
  unfold depleted_early in Hd. apply andb_prop in Hd. destruct Hd as [Hd1 Hd2].
  unfold income_ceased in Hc. apply andb_prop in Hc. destruct Hc as [Hc1 Hc2].
  split; [now apply Z.ltb_lt |]. split; [now apply Qle_bool_iff |].
  split; [now apply Qeq_bool_iff |]. split; [now apply Qlt_bool_iff |].
  destruct (run_years_length end_age super_return_rate target_after_tax_income
              relationship_status _ start_age start_super eq_refl) as [Hle Hiff].
  assert (Hne : length (fst (run_years end_age super_return_rate
                               target_after_tax_income relationship_status
                               (range start_age (end_age + 1)) start_super))
                <> Z.to_nat (end_age + 1 - start_age)).
  { intros E. apply Hiff in E. congruence. }
  lia.
Qed.

Lemma X20_early_termination_last_year_witness :
  exists y,
    nth_error (project_retirement_income 0 60 70 0.04 50000 single)
      (length (project_retirement_income 0 60 70 0.04 50000 single) - 1)
    = Some (year_result y)
    /\ (yr_age y < 70)%Z
    /\ yr_end_super y <= 0
    /\ yr_annual_age_pension y == 0
    /\ yr_total_income_after_tax y < 50000
    /\ (Z.of_nat (length (project_retirement_income 0 60 70 0.04 50000 single))
        < 70 - 60 + 1)%Z.
Proof.
  apply (X20_early_termination_last_year 0 60 70 0.04 50000 single).
  reflexivity.
Defined.

(** * The projection tab of the app *)

Lemma last_nth_error {A : Type} (l : list A) (d : A) :
  l <> [] -> nth_error l (length l - 1) = Some (last l d).
Proof.
  induction l as [| a l IH]; intros H; [contradiction |].
  destruct l as [| b l]; [reflexivity |].
  change (last (a :: b :: l) d) with (last (b :: l) d).
  rewrite <- IH by discriminate. simpl. now rewrite Nat.sub_0_r.
Qed.

(** A projection over at least one age returns at least one row. *)
Lemma rows_nonempty
  (start_super : Q) (start_age end_age : Z) (r target : Q) (s : HouseholdStatus) :
  (start_age <= end_age)%Z ->
  project_retirement_income start_super start_age end_age r target s <> [].
Proof.
  intros H. unfold project_retirement_income, projected_years.
  rewrite range_cons by lia. rewrite run_years_cons.
  destruct (_ && _); discriminate.
Qed.

(** The row the summary reads, as the rounding of the last projected year. *)
Lemma last_row_is_last_year
  (start_super : Q) (start_age end_age : Z) (r target : Q) (s : HouseholdStatus)
  (d : YearResult) :
  (start_age <= end_age)%Z ->
  exists y,
    nth_error (projected_years start_super start_age end_age r target s)
      (length (projected_years start_super start_age end_age r target s) - 1) = Some y
    /\ last (project_retirement_income start_super start_age end_age r target s) d
       = year_result y.
Proof.
  intros H.
  assert (Hne := rows_nonempty start_super start_age end_age r target s H).
  assert (Hl := last_nth_error _ d Hne).
  rewrite rows_nth_error, rows_length in Hl.
  destruct (nth_error _ _) as [y |]; [| discriminate].
  exists y. split; [reflexivity |]. simpl in Hl. congruence.
Qed.

(** X21.  The handler of the projection button shows the start-age error
    exactly when the start age is not below the end age.  Otherwise it
    shows the whole projection, which is never empty: the "no projection"
    warning is unreachable, and the summary's "runs from ... to ..." line
    spans the start age to the age of the last row, which is the start age
    plus the number of rows minus 1 and at most the end age. *)
Theorem X21_app_never_shows_empty_projection
  (ri_start_super : Q) (ri_start_age ri_end_age : Z)
  (ri_super_return ri_target_income : Q) (ri_relationship_status : HouseholdStatus) :
  ~ In no_projection_warning
      (snd (run_retirement_projection ri_start_super ri_start_age ri_end_age
              ri_super_return ri_target_income ri_relationship_status))
  /\ ((ri_end_age <= ri_start_age)%Z ->
      run_retirement_projection ri_start_super ri_start_age ri_end_age
        ri_super_return ri_target_income ri_relationship_status
      = ([], [start_age_error]))
  /\ ((ri_start_age < ri_end_age)%Z ->
      fst (run_retirement_projection ri_start_super ri_start_age ri_end_age
             ri_super_return ri_target_income ri_relationship_status)
      = project_retirement_income ri_start_super ri_start_age ri_end_age
          ri_super_return ri_target_income ri_relationship_status
      /\ exists (n : nat) (messages : list Message),
           length (project_retirement_income ri_start_super ri_start_age ri_end_age
                     ri_super_return ri_target_income ri_relationship_status) = S n
           /\ (ri_start_age + Z.of_nat n <= ri_end_age)%Z
           /\ snd (run_retirement_projection ri_start_super ri_start_age ri_end_age
                     ri_super_return ri_target_income ri_relationship_status)
              = projection_runs ri_start_age (ri_start_age + Z.of_nat n) :: messages
           /\ ~ In start_age_error messages).
Proof.
  assert (Hfull :
            (ri_start_age < ri_end_age)%Z ->
            fst (run_retirement_projection ri_start_super ri_start_age ri_end_age
                   ri_super_return ri_target_income ri_relationship_status)
            = project_retirement_income ri_start_super ri_start_age ri_end_age
                ri_super_return ri_target_income ri_relationship_status
            /\ exists (n : nat) (messages : list Message),
                 length (project_retirement_income ri_start_super ri_start_age
                           ri_end_age ri_super_return ri_target_income
                           ri_relationship_status) = S n
                 /\ (ri_start_age + Z.of_nat n <= ri_end_age)%Z
                 /\ snd (run_retirement_projection ri_start_super ri_start_age
                           ri_end_age ri_super_return ri_target_income
                           ri_relationship_status)
                    = projection_runs ri_start_age (ri_start_age + Z.of_nat n)
                      :: messages
                 /\ ~ In start_age_error messages
                 /\ ~ In no_projection_warning messages).
  { intros Hlt. unfold run_retirement_projection.
    replace (ri_end_age <=? ri_start_age)%Z with false
      by (symmetry; apply Z.leb_gt; lia).
    cbv zeta.
    assert (Hne := rows_nonempty ri_start_super ri_start_age ri_end_age
                     ri_super_return ri_target_income ri_relationship_status
                     ltac:(lia)).
    destruct (project_retirement_income ri_start_super ri_start_age ri_end_age
                ri_super_return ri_target_income ri_relationship_status)
      as [| first rest] eqn:Erows; [contradiction |].
    split; [reflexivity |].
    destruct (last_row_is_last_year ri_start_super ri_start_age ri_end_age
                ri_super_return ri_target_income ri_relationship_status first
                ltac:(lia)) as (y & Hy & Hlast).
    rewrite Erows in Hlast. rewrite Hlast.
    destruct (years_nth_age _ _ _ _ _ _ _ y Hy) as (Hage & Hle & _).
    rewrite <- rows_length, Erows in Hage, Hle. simpl length in Hage, Hle.
    replace (S (length rest) - 1)%nat with (length rest) in Hage, Hle by lia.
    exists (length rest). eexists. split; [reflexivity |]. split; [exact Hle |].
    cbn [snd Age year_result]. rewrite Hage.
    split; [reflexivity |].
    destruct (Qle_bool _ _); [| split; simpl; intuition discriminate].
    destruct (Qlt_bool 0 _); [| split; simpl; intuition discriminate].
    destruct (Qlt_bool _ _); split; simpl; intuition discriminate. }
  split; [| split].
  - destruct (Z_lt_le_dec ri_start_age ri_end_age) as [Hlt | Hle].
    + destruct (Hfull Hlt) as (_ & n & messages & _ & _ & -> & _ & Hno).
      simpl. intros [H | H]; [discriminate | contradiction].
    + unfold run_retirement_projection.
      replace (ri_end_age <=? ri_start_age)%Z with true
        by (symmetry; apply Z.leb_le; lia).
      simpl. intuition discriminate.
  - intros Hle. unfold run_retirement_projection.
    replace (ri_end_age <=? ri_start_age)%Z with true
      by (symmetry; apply Z.leb_le; lia).
    reflexivity.
  - intros Hlt. destruct (Hfull Hlt) as (E & n & messages & A & B & C & D & _).
    split; [exact E |]. exists n, messages. tauto.
Qed.

Lemma X21_app_never_shows_empty_projection_witness :
  run_retirement_projection 950000 70 65 0.04 60000 single = ([], [start_age_error])
  /\ fst (run_retirement_projection 950000 65 70 0.04 60000 single)
     = project_retirement_income 950000 65 70 0.04 60000 single.
Proof.
  destruct (X21_app_never_shows_empty_projection 950000 70 65 0.04 60000 single)
    as (_ & H1 & _).
  destruct (X21_app_never_shows_empty_projection 950000 65 70 0.04 60000 single)
    as (_ & _ & H2).
  split; [apply H1; lia | apply H2; lia].
Defined.

(** X22.  The handler's success line "consistently achieved an after-tax
    income of at least the target" is justified: with a non-negative
    starting balance and return rate, whenever it is shown every projected
    year ended on a positive balance with an after-tax income of at least
    the target, and every row of the table shows an after-tax income of at
    least the rounded target. *)
Theorem X22_app_success_message_is_justified
  (ri_start_super : Q) (ri_start_age ri_end_age : Z)
  (ri_super_return ri_target_income : Q) (ri_relationship_status : HouseholdStatus) :
  0 <= ri_start_super -> 0 <= ri_super_return ->
  In target_achieved_info
     (snd (run_retirement_projection ri_start_super ri_start_age ri_end_age
             ri_super_return ri_target_income ri_relationship_status)) ->
  (forall y,
      In y (projected_years ri_start_super ri_start_age ri_end_age
              ri_super_return ri_target_income ri_relationship_status) ->
      0 < yr_end_super y /\ ri_target_income <= yr_total_income_after_tax y)
  /\ (forall row,
        In row (fst (run_retirement_projection ri_start_super ri_start_age ri_end_age
                       ri_super_return ri_target_income ri_relationship_status)) ->
        round2 ri_target_income <= Total_Income_After_Tax row).
Proof.
  intros H0 Hr Hmsg.
  destruct (Z_lt_le_dec ri_start_age ri_end_age) as [Hlt | Hge].
  2:{ exfalso. revert Hmsg. unfold run_retirement_projection.
      replace (ri_end_age <=? ri_start_age)%Z with true
        by (symmetry; apply Z.leb_le; lia).
      simpl. intuition discriminate. }
  assert (Hne := rows_nonempty ri_start_super ri_start_age ri_end_age
                   ri_super_return ri_target_income ri_relationship_status
                   ltac:(lia)).
  revert Hmsg. unfold run_retirement_projection.
  replace (ri_end_age <=? ri_start_age)%Z with false
    by (symmetry; apply Z.leb_gt; lia).
  cbv zeta.
  destruct (project_retirement_income ri_start_super ri_start_age ri_end_age
              ri_super_return ri_target_income ri_relationship_status)
    as [| first rest] eqn:Erows; [contradiction |].
  destruct (last_row_is_last_year ri_start_super ri_start_age ri_end_age
              ri_super_return ri_target_income ri_relationship_status first
              ltac:(lia)) as (ylast & Hlast & Elast).
  rewrite Erows in Elast. rewrite Elast. cbn [fst snd].
  intros Hmsg.
  assert (Hpos : 0 < yr_end_super ylast).
  { destruct (Qle_bool_cases (End_Super (year_result ylast)) 0)
      as [[E _] | [_ Hend]].
    - exfalso. rewrite E in Hmsg. revert Hmsg.
      destruct (Qlt_bool 0 _); [destruct (Qlt_bool _ _) |];
        simpl; intuition discriminate.
    - simpl in Hend. destruct (Qlt_le_dec 0 (yr_end_super ylast)) as [H | H];
        [exact H |].
      apply round2_le in H. rewrite round2_zero in H. lra. }
  assert (Hall : forall y,
             In y (projected_years ri_start_super ri_start_age ri_end_age
                     ri_super_return ri_target_income ri_relationship_status) ->
             0 < yr_end_super y).
  { intros y Hin. destruct (Qlt_le_dec 0 (yr_end_super y)) as [H | H]; [exact H |].
    exfalso. apply In_nth_error in Hin. destruct Hin as [i Hi].
    assert (Hi' : (i < length (projected_years ri_start_super ri_start_age ri_end_age
                                 ri_super_return ri_target_income
                                 ri_relationship_status))%nat)
      by (apply nth_error_Some; congruence).
    destruct (Nat.eq_dec i
                (length (projected_years ri_start_super ri_start_age ri_end_age
                           ri_super_return ri_target_income
                           ri_relationship_status) - 1)) as [E | E].
    - rewrite <- E in Hlast. assert (y = ylast) by congruence. subst y. lra.
    - replace (length (projected_years ri_start_super ri_start_age ri_end_age
                        ri_super_return ri_target_income ri_relationship_status) - 1)%nat
        with (i + S (length (projected_years ri_start_super ri_start_age ri_end_age
                               ri_super_return ri_target_income
                               ri_relationship_status) - 1 - i - 1))%nat
        in Hlast by lia.
      destruct (years_stay_exhausted _ _ _ _ _ _ H0 Hr _ _ _ _ Hi H Hlast)
        as (_ & _ & Hz).
      lra. }
  split.
  - intros y Hin. split; [now apply Hall |].
    destruct (Qlt_le_dec (yr_total_income_after_tax y) ri_target_income)
      as [Hbelow | Hmet]; [| exact Hmet].
    exfalso.
    destruct (years_balance _ _ _ _ _ _ H0 Hr y Hin) as (Hcs & _).
    rewrite (years_in_year_values _ _ _ _ _ _ y Hin) in Hbelow.
    apply year_values_target_or_exhausted in Hbelow; [| exact Hcs].
    rewrite <- (years_in_year_values _ _ _ _ _ _ y Hin) in Hbelow.
    assert (Hy := Hall y Hin). lra.
  - intros row Hin. rewrite <- Erows in Hin. unfold project_retirement_income in Hin.
    apply in_map_iff in Hin. destruct Hin as (y & <- & Hin).
    simpl. apply round2_le.
    destruct (Qlt_le_dec (yr_total_income_after_tax y) ri_target_income)
      as [Hbelow | Hmet]; [| exact Hmet].
    exfalso.
    destruct (years_balance _ _ _ _ _ _ H0 Hr y Hin) as (Hcs & _).
    rewrite (years_in_year_values _ _ _ _ _ _ y Hin) in Hbelow.
    apply year_values_target_or_exhausted in Hbelow; [| exact Hcs].
    rewrite <- (years_in_year_values _ _ _ _ _ _ y Hin) in Hbelow.
    assert (Hy := Hall y Hin). lra.
Qed.

Lemma X22_app_success_message_is_justified_witness :
  (forall y, In y (projected_years 950000 65 70 0.04 60000 single) ->
             0 < yr_end_super y /\ 60000 <= yr_total_income_after_tax y)
  /\ (forall row,
        In row (fst (run_retirement_projection 950000 65 70 0.04 60000 single)) ->
        round2 60000 <= Total_Income_After_Tax row).
Proof.
  apply (X22_app_success_message_is_justified 950000 65 70 0.04 60000 single).
  - vm_compute. discriminate.
  - vm_compute. discriminate.
  - vm_compute. auto 6.
Defined.

(** X23.  When the projection leaves its loop early, the handler's summary
    is the depletion warning for the age of the last row, which is below
    the end age, followed by the "no Age Pension, income would cease"
    error, and nothing else. *)
Theorem X23_app_summary_after_early_termination
  (ri_start_super : Q) (ri_start_age ri_end_age : Z)
  (ri_super_return ri_target_income : Q) (ri_relationship_status : HouseholdStatus) :
  (ri_start_age < ri_end_age)%Z ->
  terminated_early ri_start_super ri_start_age ri_end_age
    ri_super_return ri_target_income ri_relationship_status = true ->
  exists to_age : Z,
    (ri_start_age <= to_age < ri_end_age)%Z
    /\ snd (run_retirement_projection ri_start_super ri_start_age ri_end_age
              ri_super_return ri_target_income ri_relationship_status)
       = [projection_runs ri_start_age to_age;
          depleted_warning to_age;
          income_ceased_error].
Proof.
  intros Hlt Hbreak. unfold terminated_early in Hbreak.
  destruct (run_years_break _ _ _ _ _ _ Hbreak) as (y & Hy & Hd & Hc).
  assert (Hne := rows_nonempty ri_start_super ri_start_age ri_end_age
                   ri_super_return ri_target_income ri_relationship_status
                   ltac:(lia)).
  unfold run_retirement_projection.
  replace (ri_end_age <=? ri_start_age)%Z with false
    by (symmetry; apply Z.leb_gt; lia).
  cbv zeta.
  destruct (project_retirement_income ri_start_super ri_start_age ri_end_age
              ri_super_return ri_target_income ri_relationship_status)
    as [| first rest] eqn:Erows; [contradiction |].
  destruct (last_row_is_last_year ri_start_super ri_start_age ri_end_age
              ri_super_return ri_target_income ri_relationship_status first
              ltac:(lia)) as (ylast & Hlast & Elast).
  rewrite Erows in Elast. rewrite Elast.
  assert (ylast = y) by (unfold projected_years in Hlast; congruence). subst ylast.
  destruct (years_nth_age _ _ _ _ _ _ _ y Hlast) as (Hage & _ & _).
  unfold depleted_early in Hd. apply andb_prop in Hd. destruct Hd as [Hd1 Hd2].
  unfold income_ceased in Hc. apply andb_prop in Hc. destruct Hc as [Hc1 _].
  apply Z.ltb_lt in Hd2. apply Qle_bool_iff in Hd1. apply Qeq_bool_iff in Hc1.
  exists (yr_age y). split; [lia |]. cbn [snd Age End_Super Annual_Age_Pension
                                           year_result].
  replace (Qle_bool (round2 (yr_end_super y)) 0) with true.
  2:{ symmetry. apply Qle_bool_iff. rewrite <- round2_zero. now apply round2_le. }
  replace (Qlt_bool 0 (round2 (yr_annual_age_pension y))) with false;
    [reflexivity |].
  symmetry. destruct (Qlt_bool_cases 0 (round2 (yr_annual_age_pension y)))
    as [[_ H] | [E _]]; [| exact E].
  rewrite Hc1, round2_zero in H. lra.
Qed.

Lemma X23_app_summary_after_early_termination_witness :
  exists to_age : Z,
    (60 <= to_age < 70)%Z
    /\ snd (run_retirement_projection 0 60 70 0.04 50000 single)
       = [projection_runs 60 to_age; depleted_warning to_age; income_ceased_error].
Proof.
  apply (X23_app_summary_after_early_termination 0 60 70 0.04 50000 single).
  - lia.
  - reflexivity.
Defined.

(** * Further properties of one year and of the rows *)



(** X25.  Deemed income is never negative, never decreases when the
    balance grows, is 0 for a balance of at most 0 and at most 2.25% of a
    non-negative balance. *)
Theorem X25_deemed_income_shape (s : HouseholdStatus) (current_super current_super' : Q) :
  0 <= deemed_income s current_super
  /\ (current_super <= current_super' ->
      deemed_income s current_super <= deemed_income s current_super')
  /\ (current_super <= 0 -> deemed_income s current_super == 0)
  /\ (0 <= current_super -> deemed_income s current_super <= 0.0225 * current_super).
Proof.
  split; [apply deemed_income_nonneg |].
  split; [apply deemed_income_le |].
  split; intros H; unfold deemed_income; destruct s; simpl; q_tests; q_minmax; lra.
Qed.

Lemma X25_deemed_income_shape_witness :
  deemed_income single 100000 <= deemed_income single 200000
  /\ deemed_income couple (-5) == 0
  /\ deemed_income single 100000 <= 0.0225 * 100000.
Proof.
  destruct (X25_deemed_income_shape single 100000 200000) as (_ & H1 & _ & H3).
  destruct (X25_deemed_income_shape couple (-5) 0) as (_ & _ & H2 & _).
  split; [apply H1 | split; [apply H2 | apply H3]]; vm_compute; discriminate.
Defined.

(** Rounding to cents moves an amount by at most half a cent. *)
Lemma round_half_even_close (q : Q) :
  q - (1 # 2) <= inject_Z (round_half_even q)
  /\ inject_Z (round_half_even q) <= q + (1 # 2).
Proof.
  assert (Hlo := Qfloor_le q). assert (Hhi := Qlt_floor q).
  rewrite inject_Z_plus in Hhi. change (inject_Z 1) with 1 in Hhi.
  unfold round_half_even. cbv zeta. revert Hlo Hhi.
  generalize (Qfloor q). intros f Hlo Hhi.
  q_tests; try (destruct (Z.even f)); rewrite ?inject_Z_plus;
    change (inject_Z 1) with 1; split; lra.
Qed.

Lemma round2_close (x : Q) :
  x - (1 # 200) <= round2 x /\ round2 x <= x + (1 # 200).
Proof.
  destruct (round_half_even_close (x * 100)) as [Hlo Hhi].
  unfold round2. revert Hlo Hhi.
  generalize (inject_Z (round_half_even (x * 100))). intros z Hlo Hhi.
  assert (E : z / 100 == z * (1 # 100)) by field.
  rewrite E. split; lra.
Qed.

(** X26.  A returned row carries the age of its year unchanged, and each
    of its balances and amounts is within half a cent of the unrounded
    amount the loop computed. *)
Theorem X26_rows_within_half_a_cent (y : YearValues) :
  Age (year_result y) = yr_age y
  /\ (yr_current_super y - (1 # 200) <= Start_Super (year_result y)
      /\ Start_Super (year_result y) <= yr_current_super y + (1 # 200))
  /\ (yr_annual_super_withdrawal y - (1 # 200)
      <= Annual_Super_Withdrawal (year_result y)
      /\ Annual_Super_Withdrawal (year_result y)
         <= yr_annual_super_withdrawal y + (1 # 200))
  /\ (yr_annual_age_pension y - (1 # 200) <= Annual_Age_Pension (year_result y)
      /\ Annual_Age_Pension (year_result y) <= yr_annual_age_pension y + (1 # 200))
  /\ (yr_total_income_after_tax y - (1 # 200)
      <= Total_Income_After_Tax (year_result y)
      /\ Total_Income_After_Tax (year_result y)
         <= yr_total_income_after_tax y + (1 # 200))
  /\ (yr_end_super y - (1 # 200) <= End_Super (year_result y)
      /\ End_Super (year_result y) <= yr_end_super y + (1 # 200)).
Proof.
  simpl. repeat (split; [first [reflexivity | apply round2_close] |]).
  apply round2_close.
Qed.
